(** * Codex account switcher: credential profiles and the WSL bridge

    A shallow embedding of the credential-profile engine of
    [переключатель_аккаунтов_codex.py]: profile-name validation, identity
    extraction from a credential document, the atomic file writer, the
    profile registry, the active-credential store and the WSL/Windows bridge.

    Conventions of the model.
    - A Python [str] is the list of its Unicode code points ([pystr]); the
      content of a file is a list of bytes.
    - A path is the list of its segments from the root; the file system is a
      finite map from paths to nodes (regular file with content and
      modification time, or directory).  A modification time is a
      double-precision number, as [st_mtime] is, and is compared and
      subtracted as such.  Names are compared exactly, as on a
      POSIX file system; symbolic links and permission bits are not
      represented, so [os.chmod] leaves the state as it is.
    - Every operation runs in a monad that threads the file system, carries a
      Python exception as a result, and records every state the file system
      passes through, so that statements about what a concurrent reader can
      observe during an operation can be written down.
    - Functions of Python's standard library whose tables are not part of the
      program ([json.loads], [json.dumps], the UTF-8 codec,
      [base64.urlsafe_b64decode], [str.lower]) are variables of the section
      that holds the program. *)

From Stdlib Require Import QArith.
From Stdlib.Floats Require Import PrimFloat FloatOps SpecFloat.
From Stdlib.Strings Require Import Ascii String Byte.
From stdpp Require Import gmap strings list fin_maps sorting.

Local Open Scope N_scope.

(** ** Python strings *)

Definition pystr := list N.

Fixpoint str (s : string) : pystr :=
  match s with
  | EmptyString => []
  | String a r => N_of_ascii a :: str r
  end.

(** [str.isspace] on one code point: the characters [str.strip()] removes. *)
Definition isspace (c : N) : bool :=
  ((9 <=? c) && (c <=? 13)) || ((28 <=? c) && (c <=? 32))
  || (c =? 133) || (c =? 160) || (c =? 5760)
  || ((8192 <=? c) && (c <=? 8202))
  || (c =? 8232) || (c =? 8233) || (c =? 8239) || (c =? 8287) || (c =? 12288).

Fixpoint lstrip (s : pystr) : pystr :=
  match s with
  | [] => []
  | c :: r => if isspace c then lstrip r else s
  end.

Definition rstrip (s : pystr) : pystr := rev (lstrip (rev s)).

Definition strip (s : pystr) : pystr := rstrip (lstrip s).

Fixpoint startswith (pre s : pystr) : bool :=
  match pre, s with
  | [], _ => true
  | _ :: _, [] => false
  | c :: pre', d :: s' => (c =? d) && startswith pre' s'
  end.

Definition endswith (suf s : pystr) : bool := startswith (rev suf) (rev s).

(** [sub in s] for strings. *)
Fixpoint str_in (sub s : pystr) : bool :=
  startswith sub s ||
  match s with
  | [] => false
  | _ :: s' => str_in sub s'
  end.

(** [s.rfind(".")], as an index from the left. *)
Fixpoint rfind_dot (s : pystr) : option nat :=
  match s with
  | [] => None
  | c :: r =>
      match rfind_dot r with
      | Some i => Some (S i)
      | None => if c =? 46 then Some 0%nat else None
      end
  end.

(** Comparison of strings, code point by code point. *)
Fixpoint str_le (a b : pystr) : bool :=
  match a, b with
  | [], _ => true
  | _ :: _, [] => false
  | c :: a', d :: b' => (c <? d) || ((c =? d) && str_le a' b')
  end.

(** ASCII-only case folding, one instance of [str.lower]. *)
Definition ascii_lower (s : pystr) : pystr :=
  (λ c, if (65 <=? c) && (c <=? 90) then c + 32 else c) <$> s.

(** ** Exceptions and results *)

Inductive name_error :=
| EmptyName        (* "Имя профиля пустое." *)
| ReservedName     (* "Некорректное имя профиля." *)
| HasSeparator     (* "Имя профиля не должно содержать / или \." *)
| HasInvalidChar   (* "Имя профиля не должно содержать символы: ..." *)
| BadSuffix.       (* "... не должно оканчиваться на пробел или точку." *)

Inductive exn :=
| ValueError (why : name_error)
| InvalidSuffix
| FileNotFoundError
| FileExistsError
| IsADirectoryError
| NotADirectoryError
| SameFileError
| OSError
| UnicodeDecodeError
| UnicodeEncodeError
| JSONDecodeError.

Inductive result (A : Type) :=
| Ok (a : A)
| Raise (e : exn).
Arguments Ok {A} a.
Arguments Raise {A} e.

(** ** JSON values, as [json.loads] returns them *)

#[local] Unset Elimination Schemes.

Inductive json :=
| JNull
| JBool (b : bool)
| JInt (n : Z)
| JFloat (q : Q)
| JStr (s : pystr)
| JList (l : list json)
| JDict (d : list (pystr * json)).

#[local] Set Elimination Schemes.

(** Truth value of a Python object, as [or] and [if] test it. *)
Definition truthy (v : json) : bool :=
  match v with
  | JNull => false
  | JBool b => b
  | JInt n => negb (n =? 0)%Z
  | JFloat q => negb (Qeq_bool q 0)
  | JStr [] => false
  | JStr (_ :: _) => true
  | JList [] => false
  | JList (_ :: _) => true
  | JDict [] => false
  | JDict (_ :: _) => true
  end.

Definition py_or (a b : json) : json := if truthy a then a else b.

(** [d.get(k)]: the first binding of [k], [None] when there is none. *)
Fixpoint dict_get (d : list (pystr * json)) (k : pystr) : json :=
  match d with
  | [] => JNull
  | (k', v) :: d' => if decide (k' = k) then v else dict_get d' k
  end.

(** [v.get(k) if isinstance(v, dict)], [None] otherwise. *)
Definition get_if_dict (v : json) (k : pystr) : json :=
  match v with
  | JDict d => dict_get d k
  | _ => JNull
  end.

Definition json_of_opt (o : option pystr) : json :=
  match o with
  | Some s => JStr s
  | None => JNull
  end.

Record AuthInfo := mkAuthInfo {
  account_id : option pystr;
  email : option pystr;
  login_type : option pystr
}.

Definition no_auth_info : AuthInfo := mkAuthInfo None None None.

(** [token.split(".")] *)
Fixpoint split_dot (s : pystr) : list pystr :=
  match s with
  | [] => [[]]
  | c :: r =>
      if c =? 46 then [] :: split_dot r
      else match split_dot r with
           | [] => [[c]]
           | h :: t => (c :: h) :: t
           end
  end.

(** [s.encode("ascii")] *)
Fixpoint encode_ascii (s : pystr) : option (list byte) :=
  match s with
  | [] => Some []
  | c :: r =>
      if c <? 128 then
        match Byte.of_N c, encode_ascii r with
        | Some b, Some bs => Some (b :: bs)
        | _, _ => None
        end
      else None
  end.

(** ** Paths and the file system *)

Definition path := list pystr.

Definition child (p : path) (s : string) : path := p ++ [str s].
Infix "/:" := child (at level 40, left associativity).

(** [p.parent] and [p.name] *)
Definition parent (p : path) : path := removelast p.
Definition name_of (p : path) : pystr := List.last p [].

(** [PurePath.suffix] of a file name. *)
Definition suffix (name : pystr) : pystr :=
  match rfind_dot name with
  | Some i =>
      if bool_decide (0 < i)%nat && bool_decide (i < length name - 1)%nat
      then drop i name else []
  | None => []
  end.

(** [p.with_suffix(suf)] *)
Definition with_suffix (p : path) (suf : pystr) : result path :=
  if str_in (str "/") suf then Raise InvalidSuffix
  else if (negb (bool_decide (suf = [])) && negb (startswith (str ".") suf))
          || bool_decide (suf = str ".")
  then Raise InvalidSuffix
  else
    let name := name_of p in
    if bool_decide (name = []) then Raise InvalidSuffix
    else
      let old := suffix name in
      let name' :=
        if bool_decide (old = []) then name ++ suf
        else take (length name - length old) name ++ suf in
      Ok (parent p ++ [name']).

Inductive node :=
| File (data : list byte) (mtime : float)
| Dir (mtime : float).

Abbreviation fs := (gmap path node).

(** ** The monad of file-system operations

    [seen] lists, in order, every state the file system takes after the
    initial one while the operation runs; [final] is the state it ends in
    and [value] what it returns or raises. *)

Record run (A : Type) := Run {
  seen : list fs;
  final : fs;
  value : result A
}.
Arguments Run {A} seen final value.
Arguments seen {A} r.
Arguments final {A} r.
Arguments value {A} r.

Definition M (A : Type) : Type := fs → run A.

Definition ret {A} (a : A) : M A := λ σ, Run [] σ (Ok a).

Definition raise {A} (e : exn) : M A := λ σ, Run [] σ (Raise e).

Definition bind {A B} (m : M A) (k : A → M B) : M B := λ σ,
  let r := m σ in
  match value r with
  | Ok a => let r' := k a (final r) in
            Run (seen r ++ seen r') (final r') (value r')
  | Raise e => Run (seen r) (final r) (Raise e)
  end.

(** [try: m except Exception: h] *)
Definition catch {A} (m : M A) (h : exn → M A) : M A := λ σ,
  let r := m σ in
  match value r with
  | Ok a => r
  | Raise e => let r' := h e (final r) in
               Run (seen r ++ seen r') (final r') (value r')
  end.

Notation "'do' x <- m ; k" := (bind m (λ x, k))
  (at level 10, x name, m at level 100, k at level 200).
Notation "'exec' m ; k" := (bind m (λ _, k))
  (at level 10, m at level 100, k at level 200).

Definition get_fs : M fs := λ σ, Run [] σ (Ok σ).

(** One atomic change of the file system. *)
Definition set_fs (σ' : fs) : M unit := λ _, Run [σ'] σ' (Ok tt).

Definition lift {A} (r : result A) : M A :=
  match r with
  | Ok a => ret a
  | Raise e => raise e
  end.

(** The states a reader can observe while [m] runs from [σ]. *)
Definition states_of {A : Type} (m : M A) (σ : fs) : list fs :=
  σ :: seen (m σ) ++ [final (m σ)].

(** [m] changes no path outside [W], at any moment. *)
Definition only_writes {A : Type} (W : path → Prop) (m : M A) : Prop :=
  ∀ σ s p, s ∈ seen (m σ) ++ [final (m σ)] → ¬ W p → s !! p = σ !! p.

(** From a state satisfying [P], every state [m] passes through satisfies
    [I], and what it returns or raises and the state it ends in satisfy
    [Q]. *)
Definition hoare {A : Type} (P : fs → Prop) (m : M A) (I : fs → Prop)
    (Q : result A → fs → Prop) : Prop :=
  ∀ σ, P σ → Forall I (seen (m σ)) ∧ Q (value (m σ)) (final (m σ)).


Definition is_file (o : option node) : Prop :=
  match o with
  | Some (File _ _) => True
  | _ => False
  end.

Definition is_directory (o : option node) : Prop :=
  match o with
  | Some (Dir _) => True
  | _ => False
  end.

(** The directories [base/x1], [base/x1/x2], ... down to [base/rest] all
    exist. *)
Fixpoint dir_chain (σ : fs) (base : path) (rest : list pystr) : Prop :=
  match rest with
  | [] => True
  | x :: rest' =>
      is_directory (σ !! (base ++ [x])) ∧ dir_chain σ (base ++ [x]) rest'
  end.

(** The places [q.mkdir(parents=True)] may create: the non-empty prefixes
    of [q]. *)
Definition on_the_way_to (q p : path) : Prop :=
  ∃ r1 r2, q = r1 ++ r2 ∧ r1 ≠ [] ∧ p = r1.

(** No regular file sits where [q.mkdir(parents=True)] needs a directory. *)
Definition no_file_on_the_way (σ : fs) (q : path) : Prop :=
  ∀ p, on_the_way_to q p → ¬ is_file (σ !! p).

(** The same, as a test that runs. *)
Definition no_file_on_the_way_b (σ : fs) (q : path) : bool :=
  forallb (λ k, match σ !! take k q with
                | Some (File _ _) => false
                | _ => true
                end) (seq 1 (length q)).


(** What the bridge reports. *)
Inductive sync_note :=
| ImportedFromWindows (win_auth : path)
| ExportedToWindows (win_auth : path)
| UpdatedFromWindows (win_auth : path)
| UpdatedInWindows (win_auth : path).

Record ProfileInfo := mkProfileInfo {
  name : pystr;
  directory : path;
  auth_path : path;
  meta_path : path;
  auth : AuthInfo
}.

(** ** The program *)

(** The platform, the library functions and the environment of one run. *)
Class Env := {
  os_nt : bool;                          (* os.name == "nt" *)
  urlsafe_b64decode : list byte → option (list byte);
  utf8_decode : list byte → option pystr;
  utf8_encode : pystr → option (list byte);
  json_loads : pystr → option json;
  json_dumps : json → pystr;
  lower : pystr → pystr;                 (* str.lower *)
  CODEX_HOME : path;
  now : float;             (* the clock, as st_mtime records it *)
  utc_stamp : pystr;       (* strftime("%Y%m%dT%H%M%SZ") of the clock *)
  utc_iso : pystr          (* isoformat() of the clock *)
}.

Section Switcher.

Context `{Env}.

Definition AUTH_PATH : path := CODEX_HOME /: "auth.json".
Definition PROFILES_DIR : path := CODEX_HOME /: "account_profiles".
Definition BACKUPS_DIR : path := PROFILES_DIR /: "_backups".

(** The temporary sibling of the active credential, [auth.json.tmp]. *)
Definition AUTH_TMP : path := CODEX_HOME /: "auth.json.tmp".

(** *** Operating-system calls *)

Definition path_exists (p : path) : M bool :=
  do σ <- get_fs;
  ret (match σ !! p with Some _ => true | None => false end).

Definition is_dir (p : path) : M bool :=
  do σ <- get_fs;
  ret (match σ !! p with Some (Dir _) => true | _ => false end).

Definition stat_mtime (p : path) : M float :=
  do σ <- get_fs;
  match σ !! p with
  | Some (File _ m) => ret m
  | Some (Dir m) => ret m
  | None => raise FileNotFoundError
  end.

Definition read_bytes (p : path) : M (list byte) :=
  do σ <- get_fs;
  match σ !! p with
  | Some (File data _) => ret data
  | Some (Dir _) => raise IsADirectoryError
  | None => raise FileNotFoundError
  end.

(** [open(p, "wb")]: the file is created, or truncated, at once. *)
Definition open_w (p : path) : M unit :=
  do σ <- get_fs;
  match σ !! p with
  | Some (Dir _) => raise IsADirectoryError
  | _ =>
      match σ !! parent p with
      | Some (Dir _) => set_fs (<[p := File [] now]> σ)
      | Some (File _ _) => raise NotADirectoryError
      | None => raise FileNotFoundError
      end
  end.

(** Writing to an open file: the content grows under the file's name, and
    a reader can see every prefix of it. *)
Definition write_all (p : path) (data : list byte) : M unit := λ σ,
  Run ((λ k, <[p := File (take k data) now]> σ) <$> seq 1 (length data))
      (<[p := File data now]> σ) (Ok tt).

Definition write_bytes (p : path) (data : list byte) : M unit :=
  exec open_w p;
  write_all p data.

Definition read_text (p : path) : M pystr :=
  do data <- read_bytes p;
  match utf8_decode data with
  | Some text => ret text
  | None => raise UnicodeDecodeError
  end.

Definition write_text (p : path) (text : pystr) : M unit :=
  exec open_w p;
  match utf8_encode text with
  | Some data => write_all p data
  | None => raise UnicodeEncodeError
  end.

(** [p.mkdir(parents=True, exist_ok=True)], walking down from [base]. *)
Fixpoint mkdir_from (base : path) (rest : list pystr) : M unit :=
  match rest with
  | [] => ret tt
  | x :: rest' =>
      let q := base ++ [x] in
      do σ <- get_fs;
      match σ !! q with
      | Some (Dir _) => mkdir_from q rest'
      | Some (File _ _) =>
          raise (match rest' with
                 | [] => FileExistsError
                 | _ :: _ => NotADirectoryError
                 end)
      | None =>
          exec set_fs (<[q := Dir now]> σ);
          mkdir_from q rest'
      end
  end.

Definition mkdir_parents (p : path) : M unit := mkdir_from [] p.

(** [os.chmod] inside [try ... except OSError: pass]. *)
Definition os_chmod (p : path) : M unit := ret tt.

(** [os.replace(src, dst)] for a regular file [src]: one atomic step.  A
    directory as source does not arise, the source is always the temporary
    file just written. *)
Definition os_replace (src dst : path) : M unit :=
  do σ <- get_fs;
  match σ !! src with
  | None => raise FileNotFoundError
  | Some (Dir _) => raise OSError
  | Some (File data m) =>
      if decide (src = dst) then ret tt
      else
        match σ !! dst with
        | Some (Dir _) => raise IsADirectoryError
        | _ =>
            match σ !! parent dst with
            | Some (Dir _) => set_fs (delete src (<[dst := File data m]> σ))
            | Some (File _ _) => raise NotADirectoryError
            | None => raise FileNotFoundError
            end
        end
  end.

(** [shutil.copy2(src, dst)]: the content is written under the destination
    name itself, then the modification time of [src] is copied. *)
Definition shutil_copy2 (src dst : path) : M path :=
  do σ <- get_fs;
  let dst' := match σ !! dst with
              | Some (Dir _) => dst ++ [name_of src]
              | _ => dst
              end in
  match σ !! src with
  | None => raise FileNotFoundError
  | Some n =>
      if decide (src = dst') then raise SameFileError
      else
        match n with
        | Dir _ => raise IsADirectoryError
        | File data m =>
            exec write_bytes dst' data;
            do σ' <- get_fs;
            exec set_fs (<[dst' := File data m]> σ');
            ret dst'
        end
  end.

(** [p.iterdir()], in the order the file system lists the entries. *)
Definition iterdir (p : path) : M (list path) :=
  do σ <- get_fs;
  match σ !! p with
  | None => raise FileNotFoundError
  | Some (File _ _) => raise NotADirectoryError
  | Some (Dir _) =>
      ret (filter (λ q, q ≠ [] ∧ parent q = p) (map_to_list σ).*1)
  end.

(** [sorted(entries, key=lambda p: p.name.lower())] *)
Definition key_le (a b : path) : Prop :=
  str_le (lower (name_of a)) (lower (name_of b)) = true.

#[local] Instance key_le_dec (a b : path) : Decision (key_le a b) :=
  decide (str_le (lower (name_of a)) (lower (name_of b)) = true).

Definition sorted_by_lower_name (entries : list path) : list path :=
  merge_sort key_le entries.

(** *** Secure file writer *)

Definition _load_json (p : path) : M json :=
  do text <- read_text p;
  match json_loads text with
  | Some v => ret v
  | None => raise JSONDecodeError
  end.

Definition _safe_mkdir (p : path) : M unit :=
  do existed <- path_exists p;
  exec mkdir_parents p;
  if existed then ret tt else os_chmod p.

(** What [_safe_mkdir q] may do to a state: create directories, where
    nothing was, on the way to [q]. *)
Definition grown (q : path) (σ σ' : fs) : Prop :=
  ∀ p, σ' !! p = σ !! p
       ∨ (σ !! p = None ∧ σ' !! p = Some (Dir now) ∧ on_the_way_to q p).

(** [p.with_suffix(p.suffix + ".tmp")] *)
Definition tmp_sibling (p : path) : M path :=
  lift (with_suffix p (suffix (name_of p) ++ str ".tmp")).

Definition _write_text_private (p : path) (text : pystr) : M unit :=
  do tmp <- tmp_sibling p;
  exec write_text tmp text;
  exec os_chmod tmp;
  exec os_replace tmp p;
  os_chmod p.

Definition _copy_file_private (src dst : path) : M unit :=
  do tmp <- tmp_sibling dst;
  do data <- read_bytes src;
  exec write_bytes tmp data;
  exec os_chmod tmp;
  exec os_replace tmp dst;
  os_chmod dst.

(** The tail the two private writers share, named for the proofs: the
    temporary file is moved over the destination in one step. *)
Definition publish (tmp dst : path) : M unit :=
  exec os_chmod tmp;
  exec os_replace tmp dst;
  os_chmod dst.

(** *** Identity extractor *)

(** [payload_b64 + "=" * (-len(payload_b64) % 4)] *)
Definition pad_b64 (payload_b64 : pystr) : pystr :=
  payload_b64 ++ replicate ((4 - length payload_b64 mod 4) mod 4)%nat 61.

Definition _decode_jwt_payload (token : pystr)
  : option (list (pystr * json)) :=
  let parts := split_dot token in
  if (length parts <? 2)%nat then None
  else
    payload_b64 ← parts !! 1%nat;
    ascii ← encode_ascii (pad_b64 payload_b64);
    raw ← urlsafe_b64decode ascii;
    text ← utf8_decode raw;
    obj ← json_loads text;
    match obj with
    | JDict d => Some d
    | _ => None
    end.

(** [v if isinstance(v, str) and v], [None] otherwise. *)
Definition nonempty_str (v : json) : option pystr :=
  match v with
  | JStr (c :: s) => Some (c :: s)
  | _ => None
  end.

Definition _extract_auth_info (auth : json) : AuthInfo :=
  let tokens := get_if_dict auth (str "tokens") in
  let account_id := nonempty_str (get_if_dict tokens (str "account_id")) in
  let id_token := nonempty_str (get_if_dict tokens (str "id_token")) in
  let email :=
    match id_token with
    | Some tok =>
        match _decode_jwt_payload tok with
        | Some payload =>
            nonempty_str (py_or (dict_get payload (str "email"))
                                (dict_get payload (str "preferred_username")))
        | None => None
        end
    | None => None
    end in
  let api_key := get_if_dict auth (str "OPENAI_API_KEY") in
  let login_type :=
    if match api_key with
       | JStr s => negb (bool_decide (strip s = []))
       | _ => false
       end
    then Some (str "api_key")
    else if match nonempty_str (get_if_dict tokens (str "refresh_token")) with
            | Some _ => true
            | None => false
            end
    then Some (str "chatgpt")
    else None in
  mkAuthInfo account_id email login_type.

(** The two pieces of evidence [login_type] is decided on, and the token
    the email is read from. *)
Definition usable_api_key (auth : json) : Prop :=
  ∃ s, get_if_dict auth (str "OPENAI_API_KEY") = JStr s ∧ strip s ≠ [].

Definition has_refresh_token (auth : json) : Prop :=
  ∃ s, get_if_dict (get_if_dict auth (str "tokens")) (str "refresh_token")
       = JStr s ∧ s ≠ [].


Definition auth_info_of (v : json) : AuthInfo :=
  match v with
  | JDict _ => _extract_auth_info v
  | _ => no_auth_info
  end.

Definition read_current_auth_info : M AuthInfo :=
  do e <- path_exists AUTH_PATH;
  if negb e then ret no_auth_info
  else catch (do v <- _load_json AUTH_PATH; ret (auth_info_of v))
             (λ _, ret no_auth_info).

Definition read_auth_info_from_path (p : path) : M AuthInfo :=
  do v <- _load_json p;
  ret (auth_info_of v).

(** *** Profile registry *)

(** The characters Windows refuses in a file name; 34 is the double quote. *)
Definition invalid_nt : pystr := str "<>:" ++ [34] ++ str "/\|?*".

Definition _validate_profile_name (name : pystr) : result pystr :=
  let name := strip name in
  if bool_decide (name = []) then Raise (ValueError EmptyName)
  else if bool_decide (name = str ".") || bool_decide (name = str "..")
  then Raise (ValueError ReservedName)
  else if str_in (str "/") name || str_in (str "\") name
  then Raise (ValueError HasSeparator)
  else if os_nt then
    if existsb (λ ch, str_in [ch] invalid_nt) name
    then Raise (ValueError HasInvalidChar)
    else if endswith (str " ") name || endswith (str ".") name
    then Raise (ValueError BadSuffix)
    else Ok name
  else Ok name.

(** The names the specification says are refused, read on the stripped
    name: empty, [.], [..], containing a separator and, on Windows, ending in
    a dot or containing a reserved character. *)
Definition refused_name (n : pystr) : Prop :=
  n = [] ∨ n = str "." ∨ n = str ".."
  ∨ str_in (str "/") n = true ∨ str_in (str "\") n = true
  ∨ (os_nt = true
     ∧ (endswith (str ".") n = true ∨ ∃ ch, ch ∈ n ∧ ch ∈ invalid_nt)).

(** The body of the loop of [list_profiles], over the sorted entries. *)
Fixpoint scan_profiles (entries : list path) : M (list ProfileInfo) :=
  match entries with
  | [] => ret []
  | entry :: rest =>
      do d <- is_dir entry;
      if negb d then scan_profiles rest
      else if startswith (str "_") (name_of entry) then scan_profiles rest
      else
        let auth_path := entry /: "auth.json" in
        let meta_path := entry /: "meta.json" in
        do e <- path_exists auth_path;
        if negb e then scan_profiles rest
        else
          do auth_info <-
            catch (do v <- _load_json auth_path; ret (auth_info_of v))
                  (λ _, ret no_auth_info);
          do profiles <- scan_profiles rest;
          ret (mkProfileInfo (name_of entry) entry auth_path meta_path
                             auth_info :: profiles)
  end.

Definition list_profiles : M (list ProfileInfo) :=
  do e <- path_exists PROFILES_DIR;
  if negb e then ret []
  else
    do entries <- iterdir PROFILES_DIR;
    scan_profiles (sorted_by_lower_name entries).

(** What the loop of [list_profiles] makes of one entry, as a function of
    the store: the identity read from a credential file (none when it cannot
    be read), and the profile listed for an entry (none when the entry is
    skipped). *)
Definition info_at (σ : fs) (p : path) : AuthInfo :=
  match value (_load_json p σ) with
  | Ok v => auth_info_of v
  | Raise _ => no_auth_info
  end.

Definition listed (σ : fs) (entry : path) : option ProfileInfo :=
  match σ !! entry with
  | Some (Dir _) =>
      if startswith (str "_") (name_of entry) then None
      else
        match σ !! (entry /: "auth.json") with
        | Some _ =>
            Some (mkProfileInfo (name_of entry) entry (entry /: "auth.json")
                    (entry /: "meta.json") (info_at σ (entry /: "auth.json")))
        | None => None
        end
  | _ => None
  end.

Definition profile_meta (name : pystr) (info : AuthInfo) : json :=
  JDict [ (str "name", JStr name);
          (str "created_at", JStr utc_iso);
          (str "account_id", json_of_opt (account_id info));
          (str "email", json_of_opt (email info));
          (str "login_type", json_of_opt (login_type info)) ].

Definition save_current_as_profile (name : pystr) (overwrite : bool)
  : M ProfileInfo :=
  do name <- lift (_validate_profile_name name);
  do e <- path_exists AUTH_PATH;
  if negb e then raise FileNotFoundError
  else
    exec _safe_mkdir PROFILES_DIR;
    let profile_dir := PROFILES_DIR ++ [name] in
    do e <- path_exists profile_dir;
    if e && negb overwrite then raise FileExistsError
    else
      exec _safe_mkdir profile_dir;
      let auth_dst := profile_dir /: "auth.json" in
      exec _copy_file_private AUTH_PATH auth_dst;
      do auth_info <- read_auth_info_from_path auth_dst;
      let meta_path := profile_dir /: "meta.json" in
      exec _write_text_private meta_path
             (json_dumps (profile_meta name auth_info));
      ret (mkProfileInfo name profile_dir auth_dst meta_path auth_info).

(** The directory of the profile [name], and what [save_current_as_profile]
    does once the credential is copied, both named for the proofs. *)
Definition profile_dir_of (name : pystr) : path := PROFILES_DIR ++ [name].

Definition save_tail (name : pystr) : M ProfileInfo :=
  do auth_info <- read_auth_info_from_path (profile_dir_of name /: "auth.json");
  exec _write_text_private (profile_dir_of name /: "meta.json")
         (json_dumps (profile_meta name auth_info));
  ret (mkProfileInfo name (profile_dir_of name)
         (profile_dir_of name /: "auth.json")
         (profile_dir_of name /: "meta.json") auth_info).

(** [save_current_as_profile] once the name is validated. *)
Definition save_validated (name : pystr) (overwrite : bool) : M ProfileInfo :=
  do e <- path_exists AUTH_PATH;
  if negb e then raise FileNotFoundError
  else
    exec _safe_mkdir PROFILES_DIR;
    do e <- path_exists (profile_dir_of name);
    if e && negb overwrite then raise FileExistsError
    else
      exec _safe_mkdir (profile_dir_of name);
      exec _copy_file_private AUTH_PATH (profile_dir_of name /: "auth.json");
      save_tail name.

(** The store on which a profile [n] can be written: no regular file sits
    where a directory is needed, no directory where a file is written. *)
Definition profile_slot_ready (n : pystr) (σ : fs) : Prop :=
  no_file_on_the_way σ (profile_dir_of n)
  ∧ ¬ is_directory (σ !! (profile_dir_of n /: "auth.json"))
  ∧ ¬ is_directory (σ !! (profile_dir_of n /: "auth.json.tmp"))
  ∧ ¬ is_directory (σ !! (profile_dir_of n /: "meta.json"))
  ∧ ¬ is_directory (σ !! (profile_dir_of n /: "meta.json.tmp")).

(** *** Active-credential store *)

(** [BACKUPS_DIR / f"auth_{ts}.json"] *)
Definition backup_path : path :=
  BACKUPS_DIR ++ [str "auth_" ++ utc_stamp ++ str ".json"].

Definition _backup_current_auth : M (option path) :=
  do e <- path_exists AUTH_PATH;
  if negb e then ret None
  else
    exec _safe_mkdir BACKUPS_DIR;
    do written <- shutil_copy2 AUTH_PATH backup_path;
    exec os_chmod backup_path;
    ret (Some backup_path).

Definition switch_to_profile (profile : ProfileInfo) : M unit :=
  do e <- path_exists (auth_path profile);
  if negb e then raise FileNotFoundError
  else
    exec _safe_mkdir CODEX_HOME;
    exec _backup_current_auth;
    _copy_file_private (auth_path profile) AUTH_PATH.

(** *** Environment bridge

    [is_wsl] is what [_is_wsl()] answers, [env_home] and [env_mode] are the
    values of the environment variables CODEX_HOME and CODEX_WSL_AUTOSYNC,
    and [found] is what [_find_windows_codex_home()] returns, the value the
    global WINDOWS_CODEX_HOME is set to. *)

Definition env_set (v : option pystr) : bool :=
  match v with
  | Some (_ :: _) => true
  | _ => false
  end.

Definition sync_mode (env_mode : option pystr) : pystr :=
  lower (strip (if env_set env_mode then default [] env_mode
                else str "bootstrap")).

Definition _sync_wsl_windows_auth (is_wsl : bool) (env_home env_mode : option pystr)
    (found : option path) : M (option sync_note) :=
  if negb is_wsl then ret None
  else if env_set env_home then ret None
  else
    let mode := sync_mode env_mode in
    if bool_decide (mode ∈ [str "0"; str "false"; str "off"; str "no"])
    then ret None
    else
      match found with
      | None => ret None
      | Some WINDOWS_CODEX_HOME =>
          let win_auth := WINDOWS_CODEX_HOME /: "auth.json" in
          let wsl_auth := AUTH_PATH in
          if bool_decide (mode = str "bootstrap") then
            do wsl_e <- path_exists wsl_auth;
            if wsl_e then ret None
            else
              do win_e <- path_exists win_auth;
              if negb win_e then ret None
              else
                exec _safe_mkdir CODEX_HOME;
                exec _copy_file_private win_auth wsl_auth;
                ret (Some (ImportedFromWindows win_auth))
          else if bool_decide (mode = str "newest") then
            do win_e <- path_exists win_auth;
            do wsl_e <- path_exists wsl_auth;
            if negb win_e && negb wsl_e then ret None
            else if win_e && negb wsl_e then
              exec _safe_mkdir CODEX_HOME;
              exec _copy_file_private win_auth wsl_auth;
              ret (Some (ImportedFromWindows win_auth))
            else if wsl_e && negb win_e then
              exec _copy_file_private wsl_auth win_auth;
              ret (Some (ExportedToWindows win_auth))
            else
              do mtimes <-
                catch (do win_m <- stat_mtime win_auth;
                       do wsl_m <- stat_mtime wsl_auth;
                       ret (Some (win_m, wsl_m)))
                      (λ _, ret None);
              match mtimes with
              | None => ret None
              | Some (win_m, wsl_m) =>
                  if (abs (win_m - wsl_m) <? 1)%float then ret None
                  else if (wsl_m <? win_m)%float then
                    exec _safe_mkdir CODEX_HOME;
                    exec _copy_file_private win_auth wsl_auth;
                    ret (Some (UpdatedFromWindows win_auth))
                  else
                    exec _copy_file_private wsl_auth win_auth;
                    ret (Some (UpdatedInWindows win_auth))
              end
          else ret None
      end.

(** The shape of a store on which an import into the local side, and an
    export to the Windows side at [W], can go through: the directories are
    directories and no directory sits where a credential file is written. *)
Definition local_ready (σ : fs) : Prop :=
  CODEX_HOME ≠ [] ∧ no_file_on_the_way σ CODEX_HOME
  ∧ ¬ is_directory (σ !! AUTH_PATH) ∧ ¬ is_directory (σ !! AUTH_TMP).


(** *** Removing a profile *)

(** The entries of the directory [p] in [σ], in the order [iterdir] lists
    them. *)
Definition entries_of (σ : fs) (p : path) : list path :=
  filter (λ q, q ≠ [] ∧ parent q = p) (map_to_list σ).*1.

(** [os.unlink(p)] *)
Definition os_unlink (p : path) : M unit :=
  do σ <- get_fs;
  match σ !! p with
  | Some (File _ _) => set_fs (delete p σ)
  | Some (Dir _) => raise IsADirectoryError
  | None => raise FileNotFoundError
  end.

(** [os.rmdir(p)]: only an empty directory is removed. *)
Definition os_rmdir (p : path) : M unit :=
  do σ <- get_fs;
  match σ !! p with
  | Some (Dir _) =>
      if bool_decide (entries_of σ p = []) then set_fs (delete p σ)
      else raise OSError
  | Some (File _ _) => raise NotADirectoryError
  | None => raise FileNotFoundError
  end.

(** [for x in l: f(x)] *)
Fixpoint for_each {A : Type} (f : A → M unit) (l : list A) : M unit :=
  match l with
  | [] => ret tt
  | x :: l' => exec f x; for_each f l'
  end.

(** [shutil.rmtree(p)]: the entries of the directory are listed, each one is
    removed in turn (a directory by the same procedure, anything else by
    [os.unlink]) and the directory itself is removed last.  [depth] bounds
    the nesting the procedure descends; [shutil_rmtree] starts it with the
    length of the longest path of the store, which is never used up
    ([rmtree_from_ok]). *)
Fixpoint rmtree_from (depth : nat) (p : path) : M unit :=
  match depth with
  | O => raise OSError
  | S d =>
      do entries <- iterdir p;
      exec for_each (λ q, do sub <- is_dir q;
                          if sub then rmtree_from d q else os_unlink q)
                    entries;
      os_rmdir p
  end.

Definition max_depth (σ : fs) : nat :=
  max_list (length <$> (map_to_list σ).*1).

Definition shutil_rmtree (p : path) : M unit :=
  do σ <- get_fs;
  rmtree_from (S (max_depth σ)) p.

Definition delete_profile (name : pystr) : M unit :=
  do name <- lift (_validate_profile_name name);
  let profile_dir := PROFILES_DIR ++ [name] in
  do e <- path_exists profile_dir;
  if negb e then raise FileNotFoundError
  else shutil_rmtree profile_dir.

(** Every path of [σ] below [p] is at most [d] segments longer than [p]. *)
Definition deep (σ : fs) (p : path) (d : nat) : Prop :=
  ∀ q : path,
    is_Some (σ !! q) → p `prefix_of` q → (length q ≤ length p + d)%nat.

(** [s] is [σ] with some paths below [p] removed. *)
Definition pruned (p : path) (σ s : fs) : Prop :=
  ∀ q : path, s !! q = σ !! q ∨ (s !! q = None ∧ p `prefix_of` q).

(** Below [p], every entry of [σ] sits in a directory of [σ]: the store is
    a tree there. *)
Definition rooted (σ : fs) (p : path) : Prop :=
  ∀ q : path, is_Some (σ !! q) → p `prefix_of` q → q ≠ p →
              is_directory (σ !! parent q).

(** The same, as a test that runs. *)
Definition rooted_b (σ : fs) (p : path) : bool :=
  forallb (λ q, negb (bool_decide (p `prefix_of` q))
                || bool_decide (q = p)
                || match σ !! parent q with
                   | Some (Dir _) => true
                   | _ => false
                   end)
          (map_to_list σ).*1.

(** [m] does nothing but remove paths below [p], at any moment. *)
Definition prunes {A : Type} (p : path) (m : M A) : Prop :=
  ∀ σ s, s ∈ seen (m σ) ++ [final (m σ)] → pruned p σ s.

(** *** Display *)

(** [_short(s, keep_start=..., keep_end=...)]; 8230 is the ellipsis.  The
    two counts are natural numbers, as in every call; [s[-0:]] is the whole
    string. *)
Definition _short (s : option pystr) (keep_start keep_end : nat)
  : option pystr :=
  match s with
  | None => None
  | Some [] => None
  | Some s =>
      if (length s <=? keep_start + keep_end + 3)%nat then Some s
      else Some (take keep_start s ++ [8230]
                 ++ match keep_end with
                    | O => s
                    | S _ => drop (length s - keep_end) s
                    end)
  end.

End Switcher.

(** ** Concrete environments, for the closed examples

    The library functions are instantiated on the fragment the examples use:
    the UTF-8 codec on ASCII text, and [json.loads] and the base64 decoder
    on the few documents that occur. *)

Definition bytes_of (s : string) : list byte := list_byte_of_string s.

Definition ascii_decode (data : list byte) : option pystr :=
  if forallb (λ x, Byte.to_N x <? 128) data
  then Some (Byte.to_N <$> data) else None.

(** The text [{"email":"a@b.com"}]; 34 is the double quote. *)
Definition email_doc : pystr :=
  str "{" ++ [34] ++ str "email" ++ [34] ++ str ":" ++ [34] ++ str "a@b.com"
  ++ [34] ++ str "}".

Definition demo_json_loads (text : pystr) : option json :=
  if decide (text = str "{}") then Some (JDict [])
  else if decide (text = email_doc)
  then Some (JDict [(str "email", JStr (str "a@b.com"))])
  else None.

Definition demo_b64decode (data : list byte) : option (list byte) :=
  if decide (Byte.to_N <$> data = str "eyJlbWFpbCI6ImFAYi5jb20ifQ==")
  then encode_ascii email_doc else None.

Definition demo_env (nt : bool) (stamp : string) : Env := {|
  os_nt := nt;
  urlsafe_b64decode := demo_b64decode;
  utf8_decode := ascii_decode;
  utf8_encode := encode_ascii;
  json_loads := demo_json_loads;
  json_dumps := λ _, str "{}";
  lower := ascii_lower;
  CODEX_HOME := [str "tmp"; str "h"];
  now := 100;
  utc_stamp := str stamp;
  utc_iso := str "2024-01-15T10:30:00+00:00"
|}.

Definition posix_env : Env := demo_env false "20240115T103000Z".
Definition nt_env : Env := demo_env true "20240115T103000Z".

(** The home directory [/tmp/h] with nothing in it. *)
Definition empty_home : fs :=
  <[ [str "tmp"; str "h"] := Dir 0 ]>
    (<[ [str "tmp"] := Dir 0 ]> (<[ [] := Dir 0 ]> ∅)).

(** [/tmp/h/auth.json] holding [data], last modified at [t]. *)
Definition with_auth (data : string) (t : float) (σ : fs) : fs :=
  <[ [str "tmp"; str "h"; str "auth.json"] := File (bytes_of data) t ]> σ.

(** The stores of the examples, built on [/tmp/h]. *)
Definition at_home (l : list string) : path :=
  [str "tmp"; str "h"] ++ (str <$> l).

Definition put_file (l : list string) (data : string) (t : float) (σ : fs) : fs :=
  <[ at_home l := File (bytes_of data) t ]> σ.

Definition put_dir (l : list string) (σ : fs) : fs :=
  <[ at_home l := Dir 0 ]> σ.

(** An active credential and a saved profile [x] with another one. *)
Definition store_x : fs :=
  put_file ["account_profiles"; "x"; "auth.json"] "{}" 3
   (put_file ["account_profiles"; "x"; "meta.json"] "meta of x" 3
    (put_dir ["account_profiles"; "x"]
      (put_dir ["account_profiles"]
        (put_file ["auth.json"] "active" 5 empty_home)))).

(** The same store with an active credential that is a JSON text. *)
Definition store_x_json : fs := put_file ["auth.json"] "{}" 5 store_x.


Definition profile_x : ProfileInfo :=
  mkProfileInfo (str "x")
    (at_home ["account_profiles"; "x"])
    (at_home ["account_profiles"; "x"; "auth.json"])
    (at_home ["account_profiles"; "x"; "meta.json"])
    no_auth_info.

(** The Windows home [/mnt/c/u/.codex] seen from WSL, next to [/tmp/h]. *)
Definition win_home : path := [str "mnt"; str "c"; str "u"; str ".codex"].

Definition two_sides : fs :=
  <[ win_home := Dir 0 ]>
    (<[ [str "mnt"; str "c"; str "u"] := Dir 0 ]>
      (<[ [str "mnt"; str "c"] := Dir 0 ]>
        (<[ [str "mnt"] := Dir 0 ]> empty_home))).

(** The Windows credential [data], last modified at [t]. *)
Definition with_win_auth (data : string) (t : float) (σ : fs) : fs :=
  <[ win_home /: "auth.json" := File (bytes_of data) t ]> σ.


(** * Properties *)

Section Properties.

Context `{Env}.

(** ** Strings *)

Lemma lstrip_snoc (u : pystr) (c : N) :
  isspace c = false → lstrip (u ++ [c]) = lstrip u ++ [c].
Proof.
  intros Hc. induction u as [|d u IH]; simpl.
  - by rewrite Hc.
  - destruct (isspace d); [exact IH | done].
Qed.

Lemma lstrip_head (s : pystr) (c : N) (r : pystr) :
  lstrip s = c :: r → isspace c = false.
Proof.
  induction s as [|d s IH]; simpl; [done |].
  destruct (isspace d) eqn:Hd; [exact IH |].
  intros [= <- _]. exact Hd.
Qed.

Lemma lstrip_fixed (c : N) (r : pystr) :
  isspace c = false → lstrip (c :: r) = c :: r.
Proof. intros Hc. simpl. by rewrite Hc. Qed.

Lemma lstrip_idem (s : pystr) : lstrip (lstrip s) = lstrip s.
Proof.
  destruct (lstrip s) as [|c r] eqn:E; [done |].
  apply lstrip_fixed. by eapply lstrip_head.
Qed.

Lemma rstrip_cons (c : N) (r : pystr) :
  isspace c = false → rstrip (c :: r) = c :: rstrip r.
Proof.
  intros Hc. unfold rstrip. simpl.
  rewrite lstrip_snoc by done. by rewrite rev_unit.
Qed.

Lemma rstrip_idem (s : pystr) : rstrip (rstrip s) = rstrip s.
Proof. unfold rstrip. by rewrite rev_involutive, lstrip_idem. Qed.

Lemma strip_idem (s : pystr) : strip (strip s) = strip s.
Proof.
  unfold strip. destruct (lstrip s) as [|c r] eqn:E; [done |].
  assert (Hc : isspace c = false) by (by eapply lstrip_head).
  rewrite rstrip_cons by done. rewrite lstrip_fixed by done.
  by rewrite <- rstrip_cons, rstrip_idem.
Qed.

Lemma lstrip_spaces (s : pystr) : forallb isspace s = true → lstrip s = [].
Proof.
  induction s as [|c s IH]; simpl; [done |].
  intros [Hc Hs]%andb_prop. rewrite Hc. by apply IH.
Qed.

Lemma strip_spaces (s : pystr) : forallb isspace s = true → strip s = [].
Proof. intros Hs. unfold strip. by rewrite lstrip_spaces. Qed.

Lemma strip_no_trailing_space (s : pystr) :
  endswith (str " ") (strip s) = false.
Proof.
  unfold endswith, strip, rstrip. rewrite rev_involutive.
  destruct (lstrip (rev (lstrip s))) as [|c r] eqn:E; [reflexivity |].
  apply lstrip_head in E.
  change ((32 =? c) && true = false).
  destruct (N.eqb_spec 32 c) as [<- | _]; [discriminate E | reflexivity].
Qed.

(** ** Name validation *)

Lemma str_in_char (ch : N) (s : pystr) : str_in [ch] s = true ↔ ch ∈ s.
Proof.
  induction s as [|d s IH]; simpl.
  - split; [done | intros Hin; inversion Hin].
  - rewrite orb_true_iff, IH, andb_true_r, N.eqb_eq, elem_of_cons. tauto.
Qed.

Lemma has_invalid_char (n : pystr) :
  existsb (λ ch, str_in [ch] invalid_nt) n = true
  ↔ ∃ ch, ch ∈ n ∧ ch ∈ invalid_nt.
Proof.
  rewrite existsb_exists. split.
  - intros (ch & Hin & Hch). exists ch.
    split; [by apply list_elem_of_In | by apply str_in_char].
  - intros (ch & Hin & Hch). exists ch.
    split; [by apply list_elem_of_In | by apply str_in_char].
Qed.

Lemma validate_ok_iff (raw n : pystr) :
  _validate_profile_name raw = Ok n ↔ n = strip raw ∧ ¬ refused_name n.
Proof.
  unfold _validate_profile_name, refused_name.
  pose proof (strip_no_trailing_space raw) as Hsp.
  pose proof (has_invalid_char (strip raw)) as Hinv.
  split.
  - repeat case_bool_decide; cbn [orb andb negb];
      try (intros ?; discriminate).
    destruct (str_in (str "/") (strip raw)) eqn:E1; cbn [orb];
      [intros ?; discriminate |].
    destruct (str_in (str "\") (strip raw)) eqn:E2; cbn [orb];
      [intros ?; discriminate |].
    destruct os_nt.
    + destruct (existsb _ (strip raw)) eqn:E3; [intros ?; discriminate |].
      rewrite Hsp. cbn [orb].
      destruct (endswith (str ".") (strip raw)) eqn:E4;
        [intros ?; discriminate |].
      intros [= <-]. split; [done |].
      intros [?|[?|[?|[?|[?|[_ [?|Hex]]]]]]]; try congruence.
      apply Hinv in Hex. congruence.
    + intros [= <-]. split; [done |].
      intros [?|[?|[?|[?|[?|[? _]]]]]]; congruence.
  - intros [-> Hok].
    repeat case_bool_decide; cbn [orb andb negb];
      try (exfalso; apply Hok; tauto).
    destruct (str_in (str "/") (strip raw)) eqn:E1; cbn [orb];
      [exfalso; apply Hok; tauto |].
    destruct (str_in (str "\") (strip raw)) eqn:E2; cbn [orb];
      [exfalso; apply Hok; tauto |].
    destruct os_nt eqn:Hnt; [| done].
    destruct (existsb _ (strip raw)) eqn:E3.
    { exfalso. apply Hok. do 5 right. split; [done |]. right. by apply Hinv. }
    rewrite Hsp. cbn [orb].
    destruct (endswith (str ".") (strip raw)) eqn:E4; [| done].
    exfalso. apply Hok. do 5 right. split; [done |]. by left.
Qed.

Lemma validate_total (raw : pystr) :
  (∃ n, _validate_profile_name raw = Ok n)
  ∨ (∃ why, _validate_profile_name raw = Raise (ValueError why)).
Proof.
  unfold _validate_profile_name.
  repeat (case_bool_decide; cbn [orb andb negb]; eauto).
  destruct (_ || _); eauto.
  destruct os_nt; eauto.
  destruct (existsb _ _); eauto.
  destruct (_ || _); eauto.
Qed.

Lemma validate_strip (raw : pystr) :
  _validate_profile_name (strip raw) = _validate_profile_name raw.
Proof. unfold _validate_profile_name. by rewrite strip_idem. Qed.

(** ** The monad *)

Lemma bind_ok {A B : Type} (m : M A) (k : A → M B) σ tr σ1 a :
  m σ = Run tr σ1 (Ok a) →
  bind m k σ = Run (tr ++ seen (k a σ1)) (final (k a σ1)) (value (k a σ1)).
Proof. intros Hm. unfold bind. by rewrite Hm. Qed.

Lemma bind_raise {A B : Type} (m : M A) (k : A → M B) σ tr σ1 e :
  m σ = Run tr σ1 (Raise e) → bind m k σ = Run tr σ1 (Raise e).
Proof. intros Hm. unfold bind. by rewrite Hm. Qed.

Lemma run_eta {A : Type} (r : run A) : r = Run (seen r) (final r) (value r).
Proof. by destruct r. Qed.

Lemma bind_value_ok {A B : Type} (m : M A) (k : A → M B) σ b :
  value (bind m k σ) = Ok b →
  ∃ a, value (m σ) = Ok a ∧ value (k a (final (m σ))) = Ok b.
Proof.
  unfold bind. destruct (value (m σ)) as [a|e] eqn:E; simpl; [eauto | done].
Qed.

Lemma bind_states {A B : Type} (m : M A) (k : A → M B) σ s :
  s ∈ seen (bind m k σ) ++ [final (bind m k σ)] →
  s ∈ seen (m σ) ++ [final (m σ)]
  ∨ ∃ a, value (m σ) = Ok a
         ∧ s ∈ seen (k a (final (m σ))) ++ [final (k a (final (m σ)))].
Proof.
  unfold bind. destruct (value (m σ)) as [a|e] eqn:E; simpl.
  - rewrite <- app_assoc, !elem_of_app. intros [Hs | Hs].
    + left. by left.
    + right. exists a. split; [done |]. by apply elem_of_app.
  - by left.
Qed.

Lemma catch_states {A : Type} (m : M A) (h : exn → M A) σ s :
  s ∈ seen (catch m h σ) ++ [final (catch m h σ)] →
  s ∈ seen (m σ) ++ [final (m σ)]
  ∨ ∃ e, value (m σ) = Raise e
         ∧ s ∈ seen (h e (final (m σ))) ++ [final (h e (final (m σ)))].
Proof.
  unfold catch. destruct (value (m σ)) as [a|e] eqn:E; simpl.
  - by left.
  - rewrite <- app_assoc, !elem_of_app. intros [Hs | Hs].
    + left. by left.
    + right. exists e. split; [done |]. by apply elem_of_app.
Qed.

(** *** Footprints *)

Lemma ow_mono {A : Type} (W W' : path → Prop) (m : M A) :
  (∀ p, W p → W' p) → only_writes W m → only_writes W' m.
Proof. intros HW Hm σ s p Hs Hp. eapply Hm; eauto. Qed.

Lemma ow_pure {A : Type} (W : path → Prop) (m : M A) :
  (∀ σ, seen (m σ) = [] ∧ final (m σ) = σ) → only_writes W m.
Proof.
  intros Hm σ s p Hs _. destruct (Hm σ) as [Hseen Hfin].
  rewrite Hseen, Hfin in Hs. simpl in Hs.
  apply list_elem_of_singleton in Hs. by subst.
Qed.

Lemma ow_ret {A : Type} (W : path → Prop) (a : A) : only_writes W (ret a).
Proof. by apply ow_pure. Qed.

Lemma ow_raise {A : Type} (W : path → Prop) (e : exn) : only_writes W (@raise A e).
Proof. by apply ow_pure. Qed.

Lemma ow_lift {A : Type} (W : path → Prop) (r : result A) : only_writes W (lift r).
Proof. destruct r; [apply ow_ret | apply ow_raise]. Qed.

Lemma ow_bind {A B : Type} (W : path → Prop) (m : M A) (k : A → M B) :
  only_writes W m → (∀ a, only_writes W (k a)) → only_writes W (bind m k).
Proof.
  intros Hm Hk σ s p Hs Hp.
  apply bind_states in Hs as [Hs | (a & _ & Hs)].
  - by eapply Hm.
  - rewrite (Hk a _ _ _ Hs Hp). eapply Hm; [| done].
    apply elem_of_app. right. by apply list_elem_of_singleton.
Qed.

Lemma ow_catch {A : Type} (W : path → Prop) (m : M A) (h : exn → M A) :
  only_writes W m → (∀ e, only_writes W (h e)) → only_writes W (catch m h).
Proof.
  intros Hm Hh σ s p Hs Hp.
  apply catch_states in Hs as [Hs | (e & _ & Hs)].
  - by eapply Hm.
  - rewrite (Hh e _ _ _ Hs Hp). eapply Hm; [| done].
    apply elem_of_app. right. by apply list_elem_of_singleton.
Qed.

(** A step that reads the state and continues with something of the same
    footprint. *)
Lemma ow_get {A : Type} (W : path → Prop) (k : fs → M A) :
  (∀ σ, only_writes W (k σ)) → only_writes W (bind get_fs k).
Proof. intros Hk. apply ow_bind; [by apply ow_pure | done]. Qed.

Lemma set_states (σ σ' s : fs) :
  s ∈ seen (set_fs σ' σ) ++ [final (set_fs σ' σ)] → s = σ'.
Proof.
  simpl. rewrite !elem_of_cons. intros [-> | [-> | Hs]]; [done | done |].
  inversion Hs.
Qed.

Ltac split_states H :=
  repeat first
    [ rewrite elem_of_app in H
    | rewrite elem_of_cons in H
    | rewrite elem_of_nil in H ];
  repeat match type of H with
         | _ ∨ _ => destruct H as [H | H]
         | False => destruct H
         end.

(** Steps that only read. *)
Ltac reads_only :=
  apply ow_pure; intros σ;
  repeat (unfold bind, get_fs, ret, raise; simpl);
  repeat case_match; done.

Lemma ow_path_exists (W : path → Prop) (p : path) :
  only_writes W (path_exists p).
Proof. by apply ow_pure. Qed.

Lemma ow_is_dir (W : path → Prop) (p : path) : only_writes W (is_dir p).
Proof. by apply ow_pure. Qed.

Lemma ow_stat_mtime (W : path → Prop) (p : path) :
  only_writes W (stat_mtime p).
Proof. unfold stat_mtime. reads_only. Qed.

Lemma ow_read_bytes (W : path → Prop) (p : path) :
  only_writes W (read_bytes p).
Proof. unfold read_bytes. reads_only. Qed.

Lemma ow_iterdir (W : path → Prop) (p : path) : only_writes W (iterdir p).
Proof. unfold iterdir. reads_only. Qed.

Lemma ow_read_text (W : path → Prop) (p : path) :
  only_writes W (read_text p).
Proof.
  unfold read_text. apply ow_bind; [apply ow_read_bytes |].
  intros data. destruct (utf8_decode data); [apply ow_ret | apply ow_raise].
Qed.

Lemma ow_load_json (W : path → Prop) (p : path) :
  only_writes W (_load_json p).
Proof.
  unfold _load_json. apply ow_bind; [apply ow_read_text |].
  intros text. destruct (json_loads text); [apply ow_ret | apply ow_raise].
Qed.

Lemma ow_read_auth_info_from_path (W : path → Prop) (p : path) :
  only_writes W (read_auth_info_from_path p).
Proof.
  unfold read_auth_info_from_path.
  apply ow_bind; [apply ow_load_json | intros v; apply ow_ret].
Qed.

Lemma ow_os_chmod (W : path → Prop) (p : path) : only_writes W (os_chmod p).
Proof. apply ow_ret. Qed.

(** Steps that write. *)
Lemma ow_open_w (W : path → Prop) (p : path) :
  W p → only_writes W (open_w p).
Proof.
  intros HW σ s q Hs Hq. assert (p ≠ q) by congruence.
  unfold open_w, bind, get_fs, set_fs, raise in Hs. simpl in Hs.
  repeat case_match; simpl in Hs; split_states Hs; subst; try done;
    by rewrite lookup_insert_ne.
Qed.

Lemma ow_write_all (W : path → Prop) (p : path) (data : list byte) :
  W p → only_writes W (write_all p data).
Proof.
  intros HW σ s q Hs Hq. assert (p ≠ q) by congruence.
  unfold write_all in Hs. simpl in Hs. split_states Hs.
  - apply list_elem_of_fmap in Hs as (k & -> & _). by rewrite lookup_insert_ne.
  - subst. by rewrite lookup_insert_ne.
Qed.

Lemma ow_write_bytes (W : path → Prop) (p : path) (data : list byte) :
  W p → only_writes W (write_bytes p data).
Proof.
  intros HW. unfold write_bytes.
  apply ow_bind; [by apply ow_open_w | intros _; by apply ow_write_all].
Qed.

Lemma ow_write_text (W : path → Prop) (p : path) (text : pystr) :
  W p → only_writes W (write_text p text).
Proof.
  intros HW. unfold write_text.
  apply ow_bind; [by apply ow_open_w | intros _].
  destruct (utf8_encode text); [by apply ow_write_all | apply ow_raise].
Qed.

Lemma ow_os_replace (W : path → Prop) (src dst : path) :
  W src → W dst → only_writes W (os_replace src dst).
Proof.
  intros Hsrc Hdst σ s q Hs Hq.
  assert (src ≠ q) by congruence. assert (dst ≠ q) by congruence.
  unfold os_replace, bind, get_fs, set_fs, raise, ret in Hs. simpl in Hs.
  repeat case_match; simpl in Hs; split_states Hs; subst; try done;
    by rewrite lookup_delete_ne, lookup_insert_ne.
Qed.

(** [mkdir] creates directories where nothing was, on the way down to its
    target, and changes nothing else. *)
Lemma mkdir_from_states (base : path) (rest : list pystr) σ s p :
  s ∈ seen (mkdir_from base rest σ) ++ [final (mkdir_from base rest σ)] →
  s !! p = σ !! p
  ∨ (σ !! p = None ∧ s !! p = Some (Dir now)
     ∧ ∃ r1 r2, rest = r1 ++ r2 ∧ r1 ≠ [] ∧ p = base ++ r1).
Proof.
  revert base σ. induction rest as [|x rest IH]; intros base σ Hs.
  - simpl in Hs. split_states Hs. subst. by left.
  - simpl in Hs. unfold bind at 1, get_fs in Hs. simpl in Hs.
    destruct (σ !! (base ++ [x])) as [[data m | m] |] eqn:E.
    + simpl in Hs. split_states Hs. subst. by left.
    + apply IH in Hs as [Hs | (Hnone & Hdir & r1 & r2 & -> & Hr1 & ->)];
        [by left | right].
      split_and!; [done | done |].
      exists (x :: r1), r2. split_and!; [done | done |].
      by rewrite <- app_assoc.
    + unfold bind, set_fs in Hs. simpl in Hs.
      assert (Hcase : s = <[base ++ [x] := Dir now]> σ
         ∨ s ∈ seen (mkdir_from (base ++ [x]) rest
                        (<[base ++ [x] := Dir now]> σ))
               ++ [final (mkdir_from (base ++ [x]) rest
                            (<[base ++ [x] := Dir now]> σ))]).
      { rewrite elem_of_cons in Hs. destruct Hs as [-> | Hs]; [by left |].
        by right. }
      clear Hs.
      assert (Hhere : ∀ t : fs, t !! p = (<[base ++ [x] := Dir now]> σ) !! p →
        t !! p = σ !! p
        ∨ (σ !! p = None ∧ t !! p = Some (Dir now)
           ∧ ∃ r1 r2, x :: rest = r1 ++ r2 ∧ r1 ≠ [] ∧ p = base ++ r1)).
      { intros t Ht. destruct (decide (base ++ [x] = p)) as [<- | Hne].
        - right. rewrite Ht, lookup_insert_eq. split_and!; [done | done |].
          by exists [x], rest.
        - left. by rewrite Ht, lookup_insert_ne. }
      destruct Hcase as [-> | Hs]; [by apply Hhere |].
      apply IH in Hs as [Hs | (Hnone & Hdir & r1 & r2 & -> & Hr1 & ->)];
        [by apply Hhere |].
      right. destruct (decide (base ++ [x] = (base ++ [x]) ++ r1)) as [Heq | Hne].
      { rewrite <- Heq, lookup_insert_eq in Hnone. done. }
      rewrite lookup_insert_ne in Hnone by done.
      split_and!; [done | done |].
      exists (x :: r1), r2. split_and!; [done | done |].
      by rewrite <- app_assoc.
Qed.

Lemma ow_mkdir_from (W : path → Prop) (base : path) (rest : list pystr) :
  (∀ r1 r2, rest = r1 ++ r2 → r1 ≠ [] → W (base ++ r1)) →
  only_writes W (mkdir_from base rest).
Proof.
  intros HW σ s p Hs Hp.
  apply (mkdir_from_states _ _ _ _ p) in Hs
    as [Hs | (_ & _ & r1 & r2 & -> & Hr1 & ->)]; [done |].
  destruct Hp. by eapply HW.
Qed.

Lemma ow_safe_mkdir (W : path → Prop) (q : path) :
  (∀ p, on_the_way_to q p → W p) → only_writes W (_safe_mkdir q).
Proof.
  intros HW. unfold _safe_mkdir.
  apply ow_bind; [apply ow_path_exists | intros existed].
  apply ow_bind.
  - apply ow_mkdir_from. intros r1 r2 -> Hr1. apply HW. by exists r1, r2.
  - intros _. destruct existed; [apply ow_ret | apply ow_os_chmod].
Qed.

Lemma safe_mkdir_states (q : path) σ s p :
  s ∈ seen (_safe_mkdir q σ) ++ [final (_safe_mkdir q σ)] →
  s !! p = σ !! p
  ∨ (σ !! p = None ∧ s !! p = Some (Dir now) ∧ on_the_way_to q p).
Proof.
  unfold _safe_mkdir. intros Hs.
  apply bind_states in Hs as [Hs | (existed & _ & Hs)].
  { simpl in Hs. split_states Hs. subst. by left. }
  change (final (path_exists q σ)) with σ in Hs.
  apply bind_states in Hs as [Hs | ([] & _ & Hs)].
  - apply (mkdir_from_states _ _ _ _ p) in Hs
      as [Hs | (? & ? & r1 & r2 & ? & ? & ?)]; [by left | right].
    split_and!; [done | done |]. by exists r1, r2.
  - assert (s = final (mkdir_parents q σ)) as ->.
    { destruct existed; simpl in Hs; split_states Hs; done. }
    assert (Hfin : final (mkdir_parents q σ)
      ∈ seen (mkdir_from [] q σ) ++ [final (mkdir_from [] q σ)]).
    { apply elem_of_app. right. by apply list_elem_of_singleton. }
    apply (mkdir_from_states _ _ _ _ p) in Hfin
      as [Hs' | (? & ? & r1 & r2 & ? & ? & ?)]; [by left | right].
    split_and!; [done | done |]. by exists r1, r2.
Qed.

(** *** The temporary sibling *)

Lemma name_of_snoc (q : path) (n : pystr) : name_of (q ++ [n]) = n.
Proof. unfold name_of. apply last_last. Qed.

Lemma parent_snoc (q : path) (n : pystr) : parent (q ++ [n]) = q.
Proof. unfold parent. apply removelast_last. Qed.

Lemma path_split (p : path) : p ≠ [] → p = parent p ++ [name_of p].
Proof. intros Hp. unfold parent, name_of. by apply app_removelast_last. Qed.

Lemma suffix_is_tail (n : pystr) :
  take (length n - length (suffix n)) n ++ suffix n = n.
Proof.
  unfold suffix. destruct (rfind_dot n) as [i|]; simpl.
  - destruct (bool_decide (0 < i)%nat && bool_decide (i < length n - 1)%nat)
      eqn:E; simpl.
    + apply andb_prop in E as [_ Hi%bool_decide_eq_true].
      rewrite length_drop.
      replace (length n - (length n - i))%nat with i by lia.
      apply take_drop.
    + rewrite Nat.sub_0_r, firstn_all. apply app_nil_r.
  - rewrite Nat.sub_0_r, firstn_all. apply app_nil_r.
Qed.

(** Whenever [p.with_suffix(p.suffix + ".tmp")] is defined, it is the
    sibling of [p] named [p.name + ".tmp"]. *)
Lemma with_suffix_tmp (p tmp : path) :
  with_suffix p (suffix (name_of p) ++ str ".tmp") = Ok tmp →
  tmp = parent p ++ [name_of p ++ str ".tmp"] ∧ p ≠ [].
Proof.
  unfold with_suffix.
  destruct (str_in _ _); [done |].
  destruct (_ || _); [done |].
  case_bool_decide as Hname; [done |].
  intros [= <-]. split.
  - f_equal. f_equal. case_bool_decide as Hold.
    + by rewrite Hold.
    + rewrite app_assoc. f_equal. apply suffix_is_tail.
  - intros ->. by apply Hname.
Qed.

Lemma tmp_sibling_fresh (p tmp : path) :
  with_suffix p (suffix (name_of p) ++ str ".tmp") = Ok tmp →
  tmp ≠ p ∧ parent tmp = parent p.
Proof.
  intros [-> Hp]%with_suffix_tmp. split.
  - intros Heq. rewrite (path_split p Hp) in Heq at 3.
    apply app_inv_head in Heq. injection Heq as Heq.
    apply (f_equal length) in Heq. rewrite length_app in Heq.
    simpl in Heq. lia.
  - apply parent_snoc.
Qed.

(** The two file names the program writes through a temporary file. *)
Lemma tmp_sibling_leaf (q : path) (leaf : string) σ :
  leaf = "auth.json"%string ∨ leaf = "meta.json"%string →
  tmp_sibling (q /: leaf) σ = Run [] σ (Ok (q ++ [str leaf ++ str ".tmp"])).
Proof.
  intros Hleaf. unfold tmp_sibling, child, with_suffix.
  rewrite name_of_snoc, parent_snoc.
  by destruct Hleaf as [-> | ->].
Qed.

(** *** Writing through a temporary file *)




Lemma write_bytes_ok (t : path) (data : list byte) σ :
  ¬ is_directory (σ !! t) → is_directory (σ !! parent t) →
  value (write_bytes t data σ) = Ok tt
  ∧ final (write_bytes t data σ) = <[t := File data now]> σ.
Proof.
  unfold write_bytes, open_w, bind, get_fs, set_fs, raise, is_directory.
  simpl. intros Ht Hp.
  destruct (σ !! t) as [[|]|]; destruct (σ !! parent t) as [[|]|];
    simpl in *; try done; by rewrite insert_insert_eq.
Qed.


Lemma os_replace_ok (a b : path) (data : list byte) (m : float) σ :
  σ !! a = Some (File data m) → a ≠ b →
  ¬ is_directory (σ !! b) → is_directory (σ !! parent b) →
  os_replace a b σ
  = Run [delete a (<[b := File data m]> σ)]
        (delete a (<[b := File data m]> σ)) (Ok tt).
Proof.
  unfold os_replace, bind, get_fs, set_fs, raise, ret, is_directory.
  simpl. intros -> Hab Hb Hp.
  repeat case_match; simpl in *; done.
Qed.


Lemma copy_unfold (src dst : path) :
  _copy_file_private src dst
  = (do tmp <- tmp_sibling dst;
     do data <- read_bytes src;
     exec write_bytes tmp data;
     publish tmp dst).
Proof. reflexivity. Qed.

Lemma write_text_unfold (dst : path) (text : pystr) :
  _write_text_private dst text
  = (do tmp <- tmp_sibling dst;
     exec write_text tmp text;
     publish tmp dst).
Proof. reflexivity. Qed.

Lemma tmp_sibling_run (dst : path) σ :
  tmp_sibling dst σ
  = Run [] σ (with_suffix dst (suffix (name_of dst) ++ str ".tmp")).
Proof. unfold tmp_sibling. by destruct (with_suffix _ _). Qed.

Lemma read_bytes_run (src : path) σ :
  read_bytes src σ
  = Run [] σ (match σ !! src with
              | Some (File data _) => Ok data
              | Some (Dir _) => Raise IsADirectoryError
              | None => Raise FileNotFoundError
              end).
Proof.
  unfold read_bytes, bind, get_fs. simpl. by destruct (σ !! src) as [[|]|].
Qed.


Lemma ow_publish (W : path → Prop) (tmp dst : path) :
  W tmp → W dst → only_writes W (publish tmp dst).
Proof.
  intros Ht Hd. unfold publish.
  apply ow_bind; [apply ow_os_chmod | intros _].
  apply ow_bind; [by apply ow_os_replace | intros _; apply ow_os_chmod].
Qed.

Lemma ow_bind_lift {A B : Type} (W : path → Prop) (r : result A)
    (k : A → M B) :
  (∀ a, r = Ok a → only_writes W (k a)) → only_writes W (bind (lift r) k).
Proof.
  intros Hk. destruct r as [a | e].
  - intros σ s p Hs Hp. eapply (Hk a eq_refl σ); [| done].
    unfold bind in Hs. simpl in Hs. exact Hs.
  - by apply ow_pure.
Qed.

Lemma ow_copy_file_private (W : path → Prop) (src dst : path) :
  W dst → W (parent dst ++ [name_of dst ++ str ".tmp"]) →
  only_writes W (_copy_file_private src dst).
Proof.
  intros Hd Ht. rewrite copy_unfold. unfold tmp_sibling.
  apply ow_bind_lift. intros tmp [-> _]%with_suffix_tmp.
  apply ow_bind; [apply ow_read_bytes | intros data].
  apply ow_bind; [by apply ow_write_bytes | intros _].
  by apply ow_publish.
Qed.

Lemma ow_write_text_private (W : path → Prop) (dst : path) (text : pystr) :
  W dst → W (parent dst ++ [name_of dst ++ str ".tmp"]) →
  only_writes W (_write_text_private dst text).
Proof.
  intros Hd Ht. rewrite write_text_unfold. unfold tmp_sibling.
  apply ow_bind_lift. intros tmp [-> _]%with_suffix_tmp.
  apply ow_bind; [by apply ow_write_text | intros _].
  by apply ow_publish.
Qed.

(** *** Running a step whose outcome is known *)

Lemma run_of {A : Type} (r : run A) (σ1 : fs) (v : result A) :
  value r = v → final r = σ1 → r = Run (seen r) σ1 v.
Proof. intros <- <-. by destruct r. Qed.

Ltac run_step E := rewrite (bind_ok _ _ _ _ _ _ E); cbn [value final seen].
Ltac run_fail E := rewrite (bind_raise _ _ _ _ _ _ E); cbn [value final seen].

Lemma path_exists_run (p : path) σ :
  path_exists p σ
  = Run [] σ (Ok (match σ !! p with Some _ => true | None => false end)).
Proof. reflexivity. Qed.

Lemma snoc_app_ne (q : path) (r : list pystr) : r ≠ [] → q ≠ q ++ r.
Proof.
  intros Hr Heq. apply Hr. apply (app_inv_head q).
  by rewrite app_nil_r.
Qed.

Lemma mkdir_from_cons (base : path) (x : pystr) (rest : list pystr) σ :
  mkdir_from base (x :: rest) σ
  = match σ !! (base ++ [x]) with
    | Some (Dir _) => mkdir_from (base ++ [x]) rest σ
    | Some (File _ _) =>
        Run [] σ (Raise (match rest with
                         | [] => FileExistsError
                         | _ :: _ => NotADirectoryError
                         end))
    | None =>
        let r := mkdir_from (base ++ [x]) rest (<[base ++ [x] := Dir now]> σ) in
        Run (<[base ++ [x] := Dir now]> σ :: seen r) (final r) (value r)
    end.
Proof.
  cbn [mkdir_from]. unfold bind at 1, get_fs. cbn [value final seen].
  destruct (σ !! (base ++ [x])) as [[data m | m] |]; cbn [app].
  - reflexivity.
  - by destruct (mkdir_from (base ++ [x]) rest σ).
  - reflexivity.
Qed.

Lemma mkdir_from_ok (base : path) (rest : list pystr) σ :
  (∀ r1 r2, rest = r1 ++ r2 → r1 ≠ [] → ¬ is_file (σ !! (base ++ r1))) →
  value (mkdir_from base rest σ) = Ok tt
  ∧ (rest ≠ [] → is_directory (final (mkdir_from base rest σ)
                                !! (base ++ rest))).
Proof.
  revert base σ. induction rest as [|x rest IH]; intros base σ Hfree.
  { by split. }
  assert (Hx : ¬ is_file (σ !! (base ++ [x]))).
  { apply (Hfree [x] rest); done. }
  assert (Hnext : ∀ σ' : fs, is_directory (σ' !! (base ++ [x])) →
    (∀ r1, r1 ≠ [] → σ' !! ((base ++ [x]) ++ r1) = σ !! ((base ++ [x]) ++ r1)) →
    value (mkdir_from (base ++ [x]) rest σ') = Ok tt
    ∧ is_directory (final (mkdir_from (base ++ [x]) rest σ')
                    !! (base ++ x :: rest))).
  { intros σ' Hdir Hsame.
    destruct (IH (base ++ [x]) σ') as [Hv Hd].
    { intros r1 r2 -> Hr1. rewrite Hsame by done. rewrite <- app_assoc.
      by apply (Hfree (x :: r1) r2). }
    split; [done |].
    destruct rest as [|y rest'].
    - exact Hdir.
    - replace (base ++ x :: y :: rest') with ((base ++ [x]) ++ y :: rest')
        by (by rewrite <- app_assoc).
      by apply Hd. }
  rewrite mkdir_from_cons.
  destruct (σ !! (base ++ [x])) as [[data m | m] |] eqn:E.
  - by destruct Hx.
  - destruct (Hnext σ) as [Hv Hd]; [by rewrite E | done |].
    split; [done | by intros _].
  - cbn [value final seen].
    destruct (Hnext (<[base ++ [x] := Dir now]> σ)) as [Hv Hd].
    + by rewrite lookup_insert_eq.
    + intros r1 Hr1. apply lookup_insert_ne. by apply snoc_app_ne.
    + split; [done | by intros _].
Qed.

Lemma safe_mkdir_run (q : path) σ : _safe_mkdir q σ = mkdir_from [] q σ.
Proof.
  unfold _safe_mkdir, mkdir_parents, os_chmod.
  rewrite (bind_ok _ _ _ _ _ _ (path_exists_run q σ)).
  cbn [value final seen app]. unfold bind.
  destruct (mkdir_from [] q σ) as [tr σ1 [[] | e]]; cbn [value final seen].
  - destruct (σ !! q); cbn [ret value final seen]; by rewrite app_nil_r.
  - reflexivity.
Qed.

Lemma safe_mkdir_ok (q : path) σ :
  q ≠ [] →
  (∀ p, on_the_way_to q p → ¬ is_file (σ !! p)) →
  ∃ tr σ1, _safe_mkdir q σ = Run tr σ1 (Ok tt)
           ∧ is_directory (σ1 !! q) ∧ grown q σ σ1.
Proof.
  intros Hq Hfree.
  destruct (mkdir_from_ok [] q σ) as [Hv Hd].
  { intros r1 r2 -> Hr1. apply Hfree. by exists r1, r2. }
  specialize (Hd Hq). simpl in Hd.
  exists (seen (_safe_mkdir q σ)), (final (_safe_mkdir q σ)).
  split_and!.
  - apply run_of; [| done]. by rewrite safe_mkdir_run.
  - by rewrite safe_mkdir_run.
  - intros p. apply safe_mkdir_states. apply elem_of_app. right.
    by apply list_elem_of_singleton.
Qed.

(** [_safe_mkdir] of a directory that is there does nothing. *)
Lemma grown_keeps (q : path) σ σ1 p :
  grown q σ σ1 → is_Some (σ !! p) → σ1 !! p = σ !! p.
Proof.
  intros Hg [n Hn]. destruct (Hg p) as [Hp | (Hnone & _)]; [done |].
  congruence.
Qed.

Lemma grown_off (q : path) σ σ1 p :
  grown q σ σ1 → ¬ on_the_way_to q p → σ1 !! p = σ !! p.
Proof. intros Hg Hp. destruct (Hg p) as [? | (_ & _ & ?)]; done. Qed.

(** *** Paths under the home directory *)

Lemma way_length (q p : path) : on_the_way_to q p → (length p ≤ length q)%nat.
Proof. intros (r1 & r2 & -> & _ & ->). rewrite length_app. lia. Qed.

Lemma way_under (h : path) (l l' : list pystr) :
  on_the_way_to (h ++ l) (h ++ l') → ∃ r, l = l' ++ r.
Proof.
  intros (r1 & r2 & Heq & _ & <-). exists r2.
  rewrite <- app_assoc in Heq. by apply app_inv_head in Heq.
Qed.

Lemma way_mono (q q' p : path) :
  on_the_way_to q p → (∃ r, q' = q ++ r) → on_the_way_to q' p.
Proof.
  intros (r1 & r2 & -> & Hr1 & ->) [r ->]. exists r1, (r2 ++ r).
  by rewrite app_assoc.
Qed.

Lemma under_neq (h : path) (l l' : list pystr) : l ≠ l' → h ++ l ≠ h ++ l'.
Proof. intros Hl Heq. by apply app_inv_head in Heq. Qed.

Lemma length_neq {A : Type} (l l' : list A) : length l ≠ length l' → l ≠ l'.
Proof. intros Hl ->. done. Qed.

(** A finished copy: the destination holds the data, the temporary file is
    gone, nothing else moved. *)
Lemma copy_ok (src dst tmp : path) (data : list byte) (m : float) σ :
  with_suffix dst (suffix (name_of dst) ++ str ".tmp") = Ok tmp →
  σ !! src = Some (File data m) →
  is_directory (σ !! parent dst) →
  ¬ is_directory (σ !! dst) → ¬ is_directory (σ !! tmp) →
  ∃ tr σ', _copy_file_private src dst σ = Run tr σ' (Ok tt)
           ∧ σ' !! dst = Some (File data now)
           ∧ σ' !! tmp = None
           ∧ ∀ p, p ≠ dst → p ≠ tmp → σ' !! p = σ !! p.
Proof.
  intros Htmp Hsrc Hpar Hdst Htd.
  destruct (tmp_sibling_fresh _ _ Htmp) as [Hne Hparent].
  assert (Hpt : parent dst ≠ tmp).
  { destruct (with_suffix_tmp _ _ Htmp) as [-> _]. by apply snoc_app_ne. }
  rewrite copy_unfold.
  assert (E1 : tmp_sibling dst σ = Run [] σ (Ok tmp))
    by (by rewrite tmp_sibling_run, Htmp).
  run_step E1.
  assert (E2 : read_bytes src σ = Run [] σ (Ok data))
    by (by rewrite read_bytes_run, Hsrc).
  run_step E2.
  destruct (write_bytes_ok tmp data σ) as [Hv Hf];
    [done | by rewrite Hparent |].
  run_step (run_of _ _ _ Hv Hf).
  unfold publish, os_chmod.
  assert (E3 : ∀ t : fs, @ret unit tt t = Run [] t (Ok tt)) by done.
  run_step (E3 (<[tmp:=File data now]> σ)).
  assert (E4 := os_replace_ok tmp dst data now (<[tmp:=File data now]> σ)).
  rewrite lookup_insert_eq, !lookup_insert_ne in E4 by done.
  specialize (E4 eq_refl Hne Hdst Hpar).
  run_step E4. unfold ret. cbn [value final seen].
  eexists _, _. split; [reflexivity |]. split_and!.
  - by rewrite lookup_delete_ne, lookup_insert_eq.
  - by rewrite lookup_delete_eq.
  - intros p Hp1 Hp2. by rewrite lookup_delete_ne, !lookup_insert_ne.
Qed.


Ltac norm_paths :=
  unfold backup_path, profile_dir_of, BACKUPS_DIR, PROFILES_DIR, AUTH_PATH,
    AUTH_TMP, child in *;
  rewrite <- ?app_assoc in *; cbn [app] in *.

(** Two paths under the home directory differ when what follows the home
    differs in its number of segments or in a literal segment. *)
Ltac path_neq :=
  norm_paths;
  first
    [ apply snoc_app_ne; discriminate
    | apply not_eq_sym; apply snoc_app_ne; discriminate
    | apply under_neq;
      first [ apply length_neq; cbn [length]; lia
            | let E := fresh in intros E; cbv in E; discriminate E ] ].

(** A path is not where [mkdir] works when it is longer than the target or
    leaves the target's line at a literal segment. *)
Ltac off_the_way :=
  let Hw := fresh "Hw" in
  let r := fresh "r" in
  let E := fresh "E" in
  intros Hw; norm_paths;
  first
    [ apply way_length in Hw; rewrite !length_app in Hw; cbn [length] in Hw;
      lia
    | apply way_under in Hw as [r E]; cbv in E; discriminate E ].

Lemma with_suffix_leaf (q : path) (leaf : string) :
  leaf = "auth.json"%string ∨ leaf = "meta.json"%string →
  with_suffix (q /: leaf) (suffix (name_of (q /: leaf)) ++ str ".tmp")
  = Ok (q ++ [str leaf ++ str ".tmp"]).
Proof.
  intros Hleaf. pose proof (tmp_sibling_leaf q leaf ∅ Hleaf) as E.
  rewrite tmp_sibling_run in E. by injection E.
Qed.

Lemma auth_tmp_sibling :
  with_suffix AUTH_PATH (suffix (name_of AUTH_PATH) ++ str ".tmp")
  = Ok AUTH_TMP.
Proof. unfold AUTH_PATH. rewrite with_suffix_leaf by (by left). done. Qed.

Lemma parent_auth : parent AUTH_PATH = CODEX_HOME.
Proof. apply parent_snoc. Qed.



Lemma auth_off_home : ¬ on_the_way_to CODEX_HOME AUTH_PATH.
Proof. off_the_way. Qed.






Lemma auth_ne_tmp : AUTH_PATH ≠ AUTH_TMP.
Proof. path_neq. Qed.



(** ** Switching to a profile *)

Lemma grown_trans (q q' : path) σ σ1 σ2 :
  grown q σ σ1 → grown q' σ1 σ2 →
  (∀ p, on_the_way_to q p → on_the_way_to q' p) →
  grown q' σ σ2.
Proof.
  intros H1 H2 Hq p.
  destruct (H1 p) as [E1 | (N1 & D1 & W1)];
    destruct (H2 p) as [E2 | (N2 & D2 & W2)].
  - left. congruence.
  - right. split_and!; [congruence | done | done].
  - right. split_and!; [done | congruence | by apply Hq].
  - congruence.
Qed.

Lemma grown_no_file (q q' : path) σ σ1 :
  grown q σ σ1 → no_file_on_the_way σ q' → no_file_on_the_way σ1 q'.
Proof.
  intros Hg Hfree p Hp.
  destruct (Hg p) as [-> | (_ & -> & _)]; [by apply Hfree | intros []].
Qed.







Lemma no_file_check (q : path) σ :
  no_file_on_the_way_b σ q = true → no_file_on_the_way σ q.
Proof.
  unfold no_file_on_the_way_b. rewrite forallb_forall.
  intros Hb p (r1 & r2 & -> & Hr1 & ->).
  assert (Hin : In (length r1) (seq 1 (length (r1 ++ r2)))).
  { apply in_seq. rewrite length_app. destruct r1; [done | simpl; lia]. }
  specialize (Hb (length r1) Hin). rewrite take_app_length in Hb.
  match type of Hb with
  | match ?o with _ => _ end = _ => change (¬ is_file o); destruct o as [[|]|]
  end; [discriminate Hb | |]; simpl; tauto.
Qed.

Lemma lift_run {A : Type} (r : result A) σ : lift r σ = Run [] σ r.
Proof. by destruct r. Qed.

Lemma validate_spaces (raw : pystr) :
  forallb isspace raw = true →
  _validate_profile_name raw = Raise (ValueError EmptyName).
Proof.
  intros Hs. unfold _validate_profile_name. by rewrite strip_spaces.
Qed.

(** What [save_current_as_profile] returns names the stripped string. *)
Lemma save_returns (raw : pystr) (overwrite : bool) σ (p : ProfileInfo) :
  value (save_current_as_profile raw overwrite σ) = Ok p →
  name p = strip raw
  ∧ directory p = PROFILES_DIR ++ [strip raw]
  ∧ auth_path p = (PROFILES_DIR ++ [strip raw]) /: "auth.json"
  ∧ meta_path p = (PROFILES_DIR ++ [strip raw]) /: "meta.json".
Proof.
  unfold save_current_as_profile. intros Hv.
  apply bind_value_ok in Hv as (n & Hn & Hv).
  rewrite lift_run in Hn, Hv. cbn [value final] in Hn, Hv.
  apply validate_ok_iff in Hn as [-> _].
  apply bind_value_ok in Hv as (e & _ & Hv).
  destruct (negb e); [discriminate Hv |].
  apply bind_value_ok in Hv as ([] & _ & Hv).
  apply bind_value_ok in Hv as (e' & _ & Hv).
  destruct (e' && negb overwrite); [discriminate Hv |].
  apply bind_value_ok in Hv as ([] & _ & Hv).
  apply bind_value_ok in Hv as ([] & _ & Hv).
  apply bind_value_ok in Hv as (info & _ & Hv).
  apply bind_value_ok in Hv as ([] & _ & Hv).
  by injection Hv as <-.
Qed.

(** C10: validation strips leading and trailing whitespace first; every
    later check and the name returned use the stripped string.  The
    validation of a name and of its stripped form agree, an accepted name is
    returned stripped, a name of whitespace only is refused as empty, and
    saving under a name is the same operation as saving under its stripped
    form: the profile it returns is named, and lives in the directory named,
    by the stripped string. *)
Theorem validation_strips_first (raw : pystr) :
  _validate_profile_name raw = _validate_profile_name (strip raw)
  ∧ (∀ n, _validate_profile_name raw = Ok n → n = strip raw)
  ∧ (forallb isspace raw = true →
     _validate_profile_name raw = Raise (ValueError EmptyName))
  ∧ (∀ overwrite,
       save_current_as_profile raw overwrite
       = save_current_as_profile (strip raw) overwrite)
  ∧ (∀ overwrite σ p,
       value (save_current_as_profile raw overwrite σ) = Ok p →
       name p = strip raw ∧ directory p = PROFILES_DIR ++ [strip raw]).
Proof.
  split_and!.
  - by rewrite validate_strip.
  - intros n Hn. by apply validate_ok_iff in Hn as [-> _].
  - apply validate_spaces.
  - intros overwrite. unfold save_current_as_profile.
    by rewrite validate_strip.
  - intros overwrite σ p Hp.
    by destruct (save_returns _ _ _ _ Hp) as (? & ? & _).
Qed.

(** C5 (amended): validation refuses exactly the names whose stripped form
    is empty, [.] or [..], contains [/] or [\], or, on Windows, ends in a
    dot or contains a reserved character.  Every refusal is a [ValueError];
    every other name is accepted and returned stripped, so a name ending in
    a space is not refused: the space is stripped.  [work] and [personal-2]
    are accepted. *)
Theorem validation_refuses (raw : pystr) :
  (refused_name (strip raw) →
   ∃ why, _validate_profile_name raw = Raise (ValueError why))
  ∧ (¬ refused_name (strip raw) →
     _validate_profile_name raw = Ok (strip raw))
  ∧ endswith (str " ") (strip raw) = false
  ∧ _validate_profile_name (str "work") = Ok (str "work")
  ∧ _validate_profile_name (str "personal-2") = Ok (str "personal-2").
Proof.
  split_and!.
  - intros Href. destruct (validate_total raw) as [[n Hn] | Hr]; [| done].
    apply validate_ok_iff in Hn as [-> Hn]. by destruct Hn.
  - intros Hok. by apply validate_ok_iff.
  - apply strip_no_trailing_space.
  - unfold _validate_profile_name. by destruct os_nt.
  - unfold _validate_profile_name. by destruct os_nt.
Qed.

(** ** Identity extraction *)

Lemma nonempty_str_Some (v : json) (s : pystr) :
  nonempty_str v = Some s ↔ v = JStr s ∧ s ≠ [].
Proof.
  split.
  - destruct v as [| | | | [|c r] | |]; simpl; try done.
    by intros [= <-].
  - intros [-> Hs]. by destruct s.
Qed.

Lemma nonempty_str_None (v : json) :
  nonempty_str v = None ↔ ¬ ∃ s, v = JStr s ∧ s ≠ [].
Proof.
  split.
  - intros Hn (s & -> & Hs). by destruct s.
  - intros Hn. destruct (nonempty_str v) as [s|] eqn:E; [| done].
    destruct Hn. exists s. by apply nonempty_str_Some.
Qed.

Lemma login_type_eq (auth : json) :
  login_type (_extract_auth_info auth)
  = if match get_if_dict auth (str "OPENAI_API_KEY") with
       | JStr s => negb (bool_decide (strip s = []))
       | _ => false
       end
    then Some (str "api_key")
    else if match nonempty_str
                    (get_if_dict (get_if_dict auth (str "tokens"))
                                 (str "refresh_token")) with
            | Some _ => true
            | None => false
            end
    then Some (str "chatgpt")
    else None.
Proof. reflexivity. Qed.

Lemma api_key_test (auth : json) :
  match get_if_dict auth (str "OPENAI_API_KEY") with
  | JStr s => negb (bool_decide (strip s = []))
  | _ => false
  end = true ↔ usable_api_key auth.
Proof.
  unfold usable_api_key.
  destruct (get_if_dict auth (str "OPENAI_API_KEY")) as [| | | | s | |];
    try (split; [done | by intros (? & ? & _)]).
  rewrite negb_true_iff, bool_decide_eq_false. split.
  - intros Hs. by exists s.
  - by intros (s' & [= <-] & Hs).
Qed.

(** C6 (amended): [login_type] is [api_key] when the API-key field is a
    string with a character that is not whitespace; otherwise [chatgpt] when
    the tokens' [refresh_token] is a non-empty string; otherwise none.  The
    empty document gives no account id, no email and no login type, and a
    document whose only field is an API key with a non-blank character gives
    [api_key]. *)
Theorem login_type_precedence (auth : json) :
  (usable_api_key auth →
   login_type (_extract_auth_info auth) = Some (str "api_key"))
  ∧ (¬ usable_api_key auth → has_refresh_token auth →
     login_type (_extract_auth_info auth) = Some (str "chatgpt"))
  ∧ (¬ usable_api_key auth → ¬ has_refresh_token auth →
     login_type (_extract_auth_info auth) = None)
  ∧ _extract_auth_info (JDict []) = mkAuthInfo None None None
  ∧ (∀ key, strip key ≠ [] →
       login_type (_extract_auth_info
                     (JDict [(str "OPENAI_API_KEY", JStr key)]))
       = Some (str "api_key")).
Proof.
  rewrite login_type_eq. pose proof (api_key_test auth) as Hapi.
  unfold has_refresh_token.
  destruct (match get_if_dict auth (str "OPENAI_API_KEY") with
            | JStr s => negb (bool_decide (strip s = []))
            | _ => false
            end).
  - split_and!; try done.
    + intros Hn. destruct Hn. by apply Hapi.
    + intros Hn. destruct Hn. by apply Hapi.
    + intros key Hkey. rewrite login_type_eq. cbn [get_if_dict dict_get].
      rewrite decide_True by done. by rewrite bool_decide_eq_false_2.
  - assert (Hno : ¬ usable_api_key auth).
    { intros Hu. apply Hapi in Hu. discriminate Hu. }
    destruct (nonempty_str _) as [s|] eqn:E.
    + split_and!; try done.
      * intros _ Hn. destruct Hn. exists s. by apply nonempty_str_Some.
      * intros key Hkey. rewrite login_type_eq. cbn [get_if_dict dict_get].
        rewrite decide_True by done. by rewrite bool_decide_eq_false_2.
    + split_and!; try done.
      * intros _ Hr. by apply nonempty_str_None in E.
      * intros key Hkey. rewrite login_type_eq. cbn [get_if_dict dict_get].
        rewrite decide_True by done. by rewrite bool_decide_eq_false_2.
Qed.








(** ** The bridge between WSL and Windows *)

Lemma leaf_ne_tmp (q q' : path) : q /: "auth.json" ≠ q' /: "auth.json.tmp".
Proof.
  unfold child. intros Heq. apply app_inj_tail in Heq as [_ Heq].
  discriminate Heq.
Qed.

Lemma home_way_auth (p : path) :
  on_the_way_to CODEX_HOME p → p ≠ AUTH_PATH ∧ p ≠ AUTH_TMP.
Proof.
  intros Hw. split; intros ->; revert Hw.
  - apply auth_off_home.
  - off_the_way.
Qed.

(** Importing the Windows credential: the local directory is made, the
    file is copied over the local credential, the Windows file stays. *)
Lemma import_ok (W : path) (note : sync_note) (data : list byte) (m : float) σ :
  σ !! (W /: "auth.json") = Some (File data m) →
  CODEX_HOME ≠ [] → no_file_on_the_way σ CODEX_HOME →
  ¬ is_directory (σ !! AUTH_PATH) → ¬ is_directory (σ !! AUTH_TMP) →
  ∃ tr σ',
    (exec _safe_mkdir CODEX_HOME;
     exec _copy_file_private (W /: "auth.json") AUTH_PATH;
     ret (Some note)) σ = Run tr σ' (Ok (Some note))
    ∧ σ' !! AUTH_PATH = Some (File data now)
    ∧ (W /: "auth.json" ≠ AUTH_PATH →
       σ' !! (W /: "auth.json") = Some (File data m)).
Proof.
  intros Hwin Hhome Hfree Hauth Htmp.
  destruct (safe_mkdir_ok CODEX_HOME σ Hhome Hfree)
    as (tr1 & σ1 & E1 & Hdir & Hg).
  run_step E1.
  assert (Hwin1 : σ1 !! (W /: "auth.json") = Some (File data m)).
  { rewrite (grown_keeps _ _ _ _ Hg); [done | by rewrite Hwin]. }
  destruct (copy_ok (W /: "auth.json") AUTH_PATH AUTH_TMP data m σ1)
    as (tr2 & σ2 & E2 & Hdst & _ & Hother).
  - apply auth_tmp_sibling.
  - done.
  - by rewrite parent_auth.
  - rewrite (grown_off _ _ _ _ Hg); [done | apply auth_off_home].
  - rewrite (grown_off _ _ _ _ Hg); [done |].
    intros Hw. by apply home_way_auth in Hw as [_ ?].
  - run_step E2. unfold ret. cbn [value final seen].
    eexists _, _. split; [reflexivity |]. split; [done |].
    intros Hne. rewrite Hother; [done | done | apply leaf_ne_tmp].
Qed.





Lemma bootstrap_is_on :
  bool_decide (str "bootstrap" ∈ [str "0"; str "false"; str "off"; str "no"])
  = false.
Proof. reflexivity. Qed.


(** The function in [bootstrap] mode, once the bridge applies. *)
Lemma sync_bootstrap (W : path) (env_home env_mode : option pystr) :
  env_set env_home = false → sync_mode env_mode = str "bootstrap" →
  _sync_wsl_windows_auth true env_home env_mode (Some W)
  = (do wsl_e <- path_exists AUTH_PATH;
     if wsl_e then ret None
     else
       do win_e <- path_exists (W /: "auth.json");
       if negb win_e then ret None
       else
         exec _safe_mkdir CODEX_HOME;
         exec _copy_file_private (W /: "auth.json") AUTH_PATH;
         ret (Some (ImportedFromWindows (W /: "auth.json")))).
Proof.
  intros Hhome Hmode. unfold _sync_wsl_windows_auth. cbn [negb].
  rewrite Hhome, Hmode, bootstrap_is_on. reflexivity.
Qed.


Lemma final_in_states {A : Type} (m : M A) σ :
  final (m σ) ∈ seen (m σ) ++ [final (m σ)].
Proof. apply elem_of_app. right. by apply list_elem_of_singleton. Qed.

(** What an import may touch: the local credential, its temporary sibling
    and the directories down to the home. *)
Lemma ow_import (W : path) (note : sync_note) :
  only_writes (λ p, p = AUTH_PATH ∨ p = AUTH_TMP ∨ on_the_way_to CODEX_HOME p)
    (exec _safe_mkdir CODEX_HOME;
     exec _copy_file_private (W /: "auth.json") AUTH_PATH;
     ret (Some note)).
Proof.
  apply ow_bind; [apply ow_safe_mkdir; tauto | intros _].
  apply ow_bind; [| intros _; apply ow_ret].
  apply ow_copy_file_private; [by left |].
  right. left. unfold AUTH_PATH, child.
  by rewrite parent_snoc, name_of_snoc.
Qed.

(** An import leaves a Windows credential that exists as it is, in every
    state it passes through. *)
Lemma import_keeps_windows (W : path) (note : sync_note) σ s :
  σ !! AUTH_PATH = None → is_Some (σ !! (W /: "auth.json")) →
  s ∈ states_of (exec _safe_mkdir CODEX_HOME;
                 exec _copy_file_private (W /: "auth.json") AUTH_PATH;
                 ret (Some note)) σ →
  s !! (W /: "auth.json") = σ !! (W /: "auth.json").
Proof.
  intros Hauth Hwin Hs. unfold states_of in Hs.
  apply elem_of_cons in Hs as [-> | Hs]; [done |].
  assert (Hne : W /: "auth.json" ≠ AUTH_PATH).
  { intros Heq. rewrite Heq, Hauth in Hwin. by destruct Hwin. }
  assert (Hmk : ∀ t, t ∈ seen (_safe_mkdir CODEX_HOME σ)
                          ++ [final (_safe_mkdir CODEX_HOME σ)] →
                     t !! (W /: "auth.json") = σ !! (W /: "auth.json")).
  { intros t Ht.
    apply (safe_mkdir_states _ _ _ (W /: "auth.json")) in Ht
      as [? | (Hn & _)]; [done |].
    rewrite Hn in Hwin. by destruct Hwin. }
  apply bind_states in Hs as [Hs | ([] & _ & Hs)]; [by apply Hmk |].
  rewrite <- (Hmk _ (final_in_states _ σ)).
  revert Hs. generalize (final (_safe_mkdir CODEX_HOME σ)). intros σ1 Hs.
  assert (Hcp : only_writes (λ p, p = AUTH_PATH ∨ p = AUTH_TMP)
                  (exec _copy_file_private (W /: "auth.json") AUTH_PATH;
                   ret (Some note))).
  { apply ow_bind; [| intros _; apply ow_ret].
    apply ow_copy_file_private; [by left |].
    right. unfold AUTH_PATH, child. by rewrite parent_snoc, name_of_snoc. }
  apply (Hcp σ1 s); [done |].
  intros [? | ?]; [done |]. by eapply leaf_ne_tmp.
Qed.

(** C9: in [bootstrap] mode the bridge writes nothing at all when the local
    credential exists, whether or not a Windows credential does; it writes
    nothing when neither exists; and when the local one is absent and the
    Windows one is found, that one is copied to the local side.  No state of
    the run shows the Windows credential changed, and nothing is touched but
    the local credential, its temporary sibling and the directories down to
    the local home. *)
Theorem bootstrap_sync (W : path) (env_home env_mode : option pystr) (σ : fs) :
  env_set env_home = false → sync_mode env_mode = str "bootstrap" →
  let win_auth := W /: "auth.json" in
  let sync := _sync_wsl_windows_auth true env_home env_mode (Some W) in
  (is_Some (σ !! AUTH_PATH) → sync σ = Run [] σ (Ok None))
  ∧ (σ !! AUTH_PATH = None → σ !! win_auth = None →
     sync σ = Run [] σ (Ok None))
  ∧ (∀ data m,
       σ !! AUTH_PATH = None → σ !! win_auth = Some (File data m) →
       local_ready σ →
       value (sync σ) = Ok (Some (ImportedFromWindows win_auth))
       ∧ final (sync σ) !! AUTH_PATH = Some (File data now)
       ∧ final (sync σ) !! win_auth = Some (File data m))
  ∧ (∀ s, s ∈ states_of sync σ → s !! win_auth = σ !! win_auth)
  ∧ (∀ s p, s ∈ states_of sync σ →
            ¬ (p = AUTH_PATH ∨ p = AUTH_TMP ∨ on_the_way_to CODEX_HOME p) →
            s !! p = σ !! p).
Proof.
  intros Hhome Hmode win_auth sync. subst win_auth sync.
  rewrite (sync_bootstrap W env_home env_mode Hhome Hmode).
  assert (Hexists : is_Some (σ !! AUTH_PATH) →
    (do wsl_e <- path_exists AUTH_PATH;
     if wsl_e then ret None
     else
       do win_e <- path_exists (W /: "auth.json");
       if negb win_e then ret None
       else
         exec _safe_mkdir CODEX_HOME;
         exec _copy_file_private (W /: "auth.json") AUTH_PATH;
         ret (Some (ImportedFromWindows (W /: "auth.json")))) σ
    = Run [] σ (Ok None)).
  { intros [n Hn]. run_step (path_exists_run AUTH_PATH σ). by rewrite Hn. }
  assert (Hneither : σ !! AUTH_PATH = None → σ !! (W /: "auth.json") = None →
    (do wsl_e <- path_exists AUTH_PATH;
     if wsl_e then ret None
     else
       do win_e <- path_exists (W /: "auth.json");
       if negb win_e then ret None
       else
         exec _safe_mkdir CODEX_HOME;
         exec _copy_file_private (W /: "auth.json") AUTH_PATH;
         ret (Some (ImportedFromWindows (W /: "auth.json")))) σ
    = Run [] σ (Ok None)).
  { intros Ha Hw. run_step (path_exists_run AUTH_PATH σ). rewrite Ha.
    run_step (path_exists_run (W /: "auth.json") σ). by rewrite Hw. }
  assert (Himport : σ !! AUTH_PATH = None → is_Some (σ !! (W /: "auth.json")) →
    (do wsl_e <- path_exists AUTH_PATH;
     if wsl_e then ret None
     else
       do win_e <- path_exists (W /: "auth.json");
       if negb win_e then ret None
       else
         exec _safe_mkdir CODEX_HOME;
         exec _copy_file_private (W /: "auth.json") AUTH_PATH;
         ret (Some (ImportedFromWindows (W /: "auth.json")))) σ
    = (exec _safe_mkdir CODEX_HOME;
       exec _copy_file_private (W /: "auth.json") AUTH_PATH;
       ret (Some (ImportedFromWindows (W /: "auth.json")))) σ).
  { intros Ha [n Hw]. run_step (path_exists_run AUTH_PATH σ). rewrite Ha.
    run_step (path_exists_run (W /: "auth.json") σ). rewrite Hw.
    cbn [negb app]. symmetry. apply run_eta. }
  split_and!.
  - done.
  - done.
  - intros data m Ha Hw (Hh & Hfree & Hna & Ht).
    rewrite Himport by (by rewrite ?Hw).
    destruct (import_ok W (ImportedFromWindows (W /: "auth.json"))
                data m σ Hw Hh Hfree Hna Ht) as (tr & σ' & E & Hd & Hk).
    rewrite E. cbn [value final seen]. split_and!; [done | done |].
    apply Hk. congruence.
  - intros s Hs.
    destruct (σ !! AUTH_PATH) as [n|] eqn:Ha.
    { unfold states_of in Hs. rewrite Hexists in Hs by done.
      cbn [seen final app] in Hs. split_states Hs; by subst. }
    destruct (σ !! (W /: "auth.json")) as [n|] eqn:Hw.
    + unfold states_of in Hs. rewrite Himport in Hs by (by rewrite ?Hw).
      rewrite <- Hw. eapply import_keeps_windows; [done | by rewrite Hw |].
      exact Hs.
    + unfold states_of in Hs. rewrite Hneither in Hs by done.
      cbn [seen final app] in Hs. split_states Hs; by subst.
  - intros s p Hs Hp.
    unfold states_of in Hs. apply elem_of_cons in Hs as [-> | Hs]; [done |].
    destruct (σ !! AUTH_PATH) as [n|] eqn:Ha.
    { rewrite Hexists in Hs by done.
      cbn [seen final app] in Hs. split_states Hs; by subst. }
    destruct (σ !! (W /: "auth.json")) as [n|] eqn:Hw.
    + rewrite Himport in Hs by (by rewrite ?Hw).
      by apply (ow_import W (ImportedFromWindows (W /: "auth.json")) σ s p Hs).
    + rewrite Hneither in Hs by done.
      cbn [seen final app] in Hs. split_states Hs; by subst.
Qed.

(** ** Saving the current credential as a profile *)

Lemma write_text_ok (t : path) (text : pystr) (data : list byte) σ :
  utf8_encode text = Some data →
  ¬ is_directory (σ !! t) → is_directory (σ !! parent t) →
  value (write_text t text σ) = Ok tt
  ∧ final (write_text t text σ) = <[t := File data now]> σ.
Proof.
  unfold write_text, open_w, bind, get_fs, set_fs, raise, is_directory.
  simpl. intros -> Ht Hp.
  destruct (σ !! t) as [[|]|]; destruct (σ !! parent t) as [[|]|];
    simpl in *; try done; by rewrite insert_insert_eq.
Qed.

Lemma write_text_private_ok (dst tmp : path) (text : pystr)
    (data : list byte) σ :
  with_suffix dst (suffix (name_of dst) ++ str ".tmp") = Ok tmp →
  utf8_encode text = Some data →
  is_directory (σ !! parent dst) →
  ¬ is_directory (σ !! dst) → ¬ is_directory (σ !! tmp) →
  ∃ tr σ', _write_text_private dst text σ = Run tr σ' (Ok tt)
           ∧ σ' !! dst = Some (File data now)
           ∧ σ' !! tmp = None
           ∧ ∀ p, p ≠ dst → p ≠ tmp → σ' !! p = σ !! p.
Proof.
  intros Htmp Henc Hpar Hdst Htd.
  destruct (tmp_sibling_fresh _ _ Htmp) as [Hne Hparent].
  assert (Hpt : parent dst ≠ tmp).
  { destruct (with_suffix_tmp _ _ Htmp) as [-> _]. by apply snoc_app_ne. }
  rewrite write_text_unfold.
  assert (E1 : tmp_sibling dst σ = Run [] σ (Ok tmp))
    by (by rewrite tmp_sibling_run, Htmp).
  run_step E1.
  destruct (write_text_ok tmp text data σ Henc) as [Hv Hf];
    [done | by rewrite Hparent |].
  run_step (run_of _ _ _ Hv Hf).
  unfold publish, os_chmod.
  assert (E3 : ∀ t : fs, @ret unit tt t = Run [] t (Ok tt)) by done.
  run_step (E3 (<[tmp:=File data now]> σ)).
  assert (E4 := os_replace_ok tmp dst data now (<[tmp:=File data now]> σ)).
  rewrite lookup_insert_eq, !lookup_insert_ne in E4 by done.
  specialize (E4 eq_refl Hne Hdst Hpar).
  run_step E4. unfold ret. cbn [value final seen].
  eexists _, _. split; [reflexivity |]. split_and!.
  - by rewrite lookup_delete_ne, lookup_insert_eq.
  - by rewrite lookup_delete_eq.
  - intros p Hp1 Hp2. by rewrite lookup_delete_ne, !lookup_insert_ne.
Qed.

Lemma read_auth_info_run (p : path) (data : list byte) (m : float) σ :
  σ !! p = Some (File data m) →
  read_auth_info_from_path p σ
  = Run [] σ
      match utf8_decode data with
      | None => Raise UnicodeDecodeError
      | Some text =>
          match json_loads text with
          | None => Raise JSONDecodeError
          | Some v => Ok (auth_info_of v)
          end
      end.
Proof.
  intros Hp. unfold read_auth_info_from_path, _load_json, read_text.
  assert (E : read_bytes p σ = Run [] σ (Ok data))
    by (by rewrite read_bytes_run, Hp).
  unfold bind. rewrite E. cbn [value final seen].
  destruct (utf8_decode data) as [text|]; [| done]. cbn [ret value final seen].
  by destruct (json_loads text).
Qed.

(** The paths of a profile. *)
Lemma profile_leaf_ne (n : pystr) (a b : string) :
  str a ≠ str b → profile_dir_of n /: a ≠ profile_dir_of n /: b.
Proof.
  intros Hab Heq. unfold child in Heq. apply app_inv_head in Heq.
  by injection Heq.
Qed.

Lemma profile_leaf_off (n : pystr) (a : string) :
  ¬ on_the_way_to (profile_dir_of n) (profile_dir_of n /: a).
Proof.
  intros Hw. apply way_length in Hw. unfold child in Hw.
  rewrite length_app in Hw. simpl in Hw. lia.
Qed.

Lemma auth_off_profile (n : pystr) :
  ¬ on_the_way_to (profile_dir_of n) AUTH_PATH.
Proof. off_the_way. Qed.

Lemma auth_ne_profile_leaf (n : pystr) (a : string) :
  AUTH_PATH ≠ profile_dir_of n /: a.
Proof. path_neq. Qed.

Lemma way_profiles_profile (n : pystr) (p : path) :
  on_the_way_to PROFILES_DIR p → on_the_way_to (profile_dir_of n) p.
Proof. intros Hp. eapply way_mono; [done |]. by exists [n]. Qed.

Lemma profile_dir_nonempty (n : pystr) : profile_dir_of n ≠ [].
Proof. unfold profile_dir_of. by destruct PROFILES_DIR. Qed.

Lemma profiles_nonempty : PROFILES_DIR ≠ [].
Proof. unfold PROFILES_DIR, child. by destruct CODEX_HOME. Qed.

Lemma profile_dir_ne_leaf (n : pystr) (a : string) :
  profile_dir_of n ≠ profile_dir_of n /: a.
Proof. unfold child. by apply snoc_app_ne. Qed.

Lemma parent_profile_leaf (n : pystr) (a : string) :
  parent (profile_dir_of n /: a) = profile_dir_of n.
Proof. apply parent_snoc. Qed.

Lemma save_unfold (raw n : pystr) (overwrite : bool) σ :
  _validate_profile_name raw = Ok n →
  save_current_as_profile raw overwrite σ = save_validated n overwrite σ.
Proof.
  intros Hn. unfold save_current_as_profile. rewrite Hn.
  unfold lift. unfold bind at 1. cbn [ret value final seen app].
  symmetry. apply run_eta.
Qed.

Lemma save_not_found (raw n : pystr) (overwrite : bool) σ :
  _validate_profile_name raw = Ok n → σ !! AUTH_PATH = None →
  save_current_as_profile raw overwrite σ
  = Run [] σ (Raise FileNotFoundError).
Proof.
  intros Hn Hnone. rewrite (save_unfold _ _ _ _ Hn). unfold save_validated.
  run_step (path_exists_run AUTH_PATH σ). by rewrite Hnone.
Qed.

Lemma mkdir_noop (base : path) (rest : list pystr) σ :
  dir_chain σ base rest → mkdir_from base rest σ = Run [] σ (Ok tt).
Proof.
  revert base. induction rest as [|x rest IH]; intros base Hc; [done |].
  destruct Hc as [Hd Hc]. rewrite mkdir_from_cons.
  destruct (σ !! (base ++ [x])) as [[|]|]; try done. by apply IH.
Qed.

Lemma save_already_exists (raw n : pystr) σ :
  _validate_profile_name raw = Ok n →
  is_Some (σ !! AUTH_PATH) →
  dir_chain σ [] PROFILES_DIR →
  is_Some (σ !! profile_dir_of n) →
  save_current_as_profile raw false σ = Run [] σ (Raise FileExistsError).
Proof.
  intros Hn [a Ha] Hchain [d Hd]. rewrite (save_unfold _ _ _ _ Hn). unfold save_validated.
  run_step (path_exists_run AUTH_PATH σ). rewrite Ha. cbn [negb].
  assert (E : _safe_mkdir PROFILES_DIR σ = Run [] σ (Ok tt))
    by (rewrite safe_mkdir_run; by apply mkdir_noop).
  run_step E.
  run_step (path_exists_run (profile_dir_of n) σ). by rewrite Hd.
Qed.

(** Up to and including the copy of the credential. *)
Lemma save_copy_phase (raw n : pystr) (overwrite : bool)
    (data : list byte) (m : float) σ :
  _validate_profile_name raw = Ok n →
  σ !! AUTH_PATH = Some (File data m) →
  profile_slot_ready n σ →
  overwrite = true ∨ σ !! profile_dir_of n = None →
  ∃ tr σ3,
    save_current_as_profile raw overwrite σ
    = Run (tr ++ seen (save_tail n σ3)) (final (save_tail n σ3))
          (value (save_tail n σ3))
    ∧ σ3 !! (profile_dir_of n /: "auth.json") = Some (File data now)
    ∧ σ3 !! (profile_dir_of n /: "auth.json.tmp") = None
    ∧ is_directory (σ3 !! profile_dir_of n)
    ∧ ∀ p, p ≠ profile_dir_of n /: "auth.json" →
           p ≠ profile_dir_of n /: "auth.json.tmp" →
           σ3 !! p = σ !! p
           ∨ (σ !! p = None ∧ σ3 !! p = Some (Dir now)
              ∧ on_the_way_to (profile_dir_of n) p).
Proof.
  intros Hn Hauth (Hfree & Ha & Hat & _ & _) Hnew.
  rewrite (save_unfold _ _ _ _ Hn). unfold save_validated.
  run_step (path_exists_run AUTH_PATH σ). rewrite Hauth. cbn [negb].
  destruct (safe_mkdir_ok PROFILES_DIR σ profiles_nonempty)
    as (tr1 & σ1 & E1 & Hd1 & Hg1).
  { intros p Hp. apply Hfree. by apply way_profiles_profile. }
  run_step E1.
  assert (Hg1' : grown (profile_dir_of n) σ σ1).
  { intros p. destruct (Hg1 p) as [? | (? & ? & ?)]; [by left | right].
    split_and!; [done | done | by apply way_profiles_profile]. }
  run_step (path_exists_run (profile_dir_of n) σ1).
  assert (Hgo : (match σ1 !! profile_dir_of n with
                 | Some _ => true
                 | None => false
                 end && negb overwrite) = false).
  { destruct Hnew as [-> | Hnone]; [apply andb_false_r |].
    rewrite (grown_off _ _ _ _ Hg1), Hnone; [done |]. off_the_way. }
  rewrite Hgo.
  destruct (safe_mkdir_ok (profile_dir_of n) σ1 (profile_dir_nonempty n))
    as (tr2 & σ2 & E2 & Hd2 & Hg2).
  { by apply (grown_no_file _ _ _ _ Hg1'). }
  run_step E2.
  pose proof (grown_trans _ _ _ _ _ Hg1' Hg2 (λ p Hp, Hp)) as Hg.
  destruct (copy_ok AUTH_PATH (profile_dir_of n /: "auth.json")
              (profile_dir_of n /: "auth.json.tmp") data m σ2)
    as (tr3 & σ3 & E3 & Hdst & Htmp & Hother).
  - rewrite with_suffix_leaf by (by left). done.
  - rewrite (grown_keeps _ _ _ _ Hg); [done | by rewrite Hauth].
  - by rewrite parent_profile_leaf.
  - rewrite (grown_off _ _ _ _ Hg); [done | apply profile_leaf_off].
  - rewrite (grown_off _ _ _ _ Hg); [done | apply profile_leaf_off].
  - run_step E3. exists (tr1 ++ tr2 ++ tr3), σ3. split_and!.
    + by rewrite <- !app_assoc.
    + done.
    + done.
    + rewrite Hother; [done | apply profile_dir_ne_leaf
                       | apply profile_dir_ne_leaf].
    + intros p Hp1 Hp2. rewrite Hother by done. apply Hg.
Qed.

Lemma slot_after_copy (n : pystr) (leaf : string) (σ σ3 : fs) :
  leaf = "meta.json"%string ∨ leaf = "meta.json.tmp"%string →
  (∀ p, p ≠ profile_dir_of n /: "auth.json" →
        p ≠ profile_dir_of n /: "auth.json.tmp" →
        σ3 !! p = σ !! p
        ∨ (σ !! p = None ∧ σ3 !! p = Some (Dir now)
           ∧ on_the_way_to (profile_dir_of n) p)) →
  σ3 !! (profile_dir_of n /: leaf) = σ !! (profile_dir_of n /: leaf).
Proof.
  intros Hleaf Hrest.
  destruct (Hrest (profile_dir_of n /: leaf)) as [E | (_ & _ & Hw)].
  - apply profile_leaf_ne. by destruct Hleaf as [-> | ->].
  - apply profile_leaf_ne. by destruct Hleaf as [-> | ->].
  - done.
  - by apply profile_leaf_off in Hw.
Qed.

(** A save that goes through: the snapshot holds the bytes of the active
    credential, the metadata is written, the active credential stays. *)
Lemma save_ok (raw n : pystr) (overwrite : bool) (data : list byte) (m : float)
    (text : pystr) (v : json) (meta : list byte) σ :
  _validate_profile_name raw = Ok n →
  σ !! AUTH_PATH = Some (File data m) →
  profile_slot_ready n σ →
  overwrite = true ∨ σ !! profile_dir_of n = None →
  utf8_decode data = Some text → json_loads text = Some v →
  utf8_encode (json_dumps (profile_meta n (auth_info_of v))) = Some meta →
  ∃ tr σ',
    save_current_as_profile raw overwrite σ
    = Run tr σ'
        (Ok (mkProfileInfo n (profile_dir_of n)
               (profile_dir_of n /: "auth.json")
               (profile_dir_of n /: "meta.json") (auth_info_of v)))
    ∧ σ' !! (profile_dir_of n /: "auth.json") = Some (File data now)
    ∧ σ' !! (profile_dir_of n /: "meta.json") = Some (File meta now)
    ∧ is_directory (σ' !! profile_dir_of n)
    ∧ σ' !! AUTH_PATH = Some (File data m).
Proof.
  intros Hn Hauth Hslot Hnew Hdec Hjson Henc.
  destruct (save_copy_phase raw n overwrite data m σ Hn Hauth Hslot Hnew)
    as (tr & σ3 & -> & Hdst & Htmp & Hdir & Hrest).
  destruct Hslot as (_ & _ & _ & Hm & Hmt).
  unfold save_tail.
  pose proof (read_auth_info_run _ _ _ _ Hdst) as E1.
  rewrite Hdec, Hjson in E1. run_step E1.
  destruct (write_text_private_ok (profile_dir_of n /: "meta.json")
              (profile_dir_of n /: "meta.json.tmp")
              (json_dumps (profile_meta n (auth_info_of v))) meta σ3)
    as (tr2 & σ4 & E2 & Hmeta & _ & Hother).
  - rewrite with_suffix_leaf by (by right). done.
  - done.
  - by rewrite parent_profile_leaf.
  - rewrite (slot_after_copy n "meta.json" σ σ3); [done | by left | done].
  - rewrite (slot_after_copy n "meta.json.tmp" σ σ3);
      [done | by right | done].
  - run_step E2. unfold ret. cbn [value final seen].
    eexists _, _. split; [reflexivity |]. split_and!.
    + rewrite Hother; [done | by apply profile_leaf_ne
                       | by apply profile_leaf_ne].
    + done.
    + rewrite Hother; [done | apply profile_dir_ne_leaf
                       | apply profile_dir_ne_leaf].
    + rewrite Hother;
        [| apply auth_ne_profile_leaf | apply auth_ne_profile_leaf].
      destruct (Hrest AUTH_PATH) as [-> | (Hnone & _)];
        [apply auth_ne_profile_leaf | apply auth_ne_profile_leaf | done |].
      congruence.
Qed.

(** C4, where the code leaves the claim: when the active credential is not
    a JSON text, saving (with or without overwrite) copies it into the
    profile and then raises from [read_auth_info_from_path]; the snapshot
    is replaced, the metadata is not written and a metadata file of an
    earlier save stays as it was. *)
Theorem save_malformed_credential (raw n : pystr) (overwrite : bool)
    (data : list byte) (m : float) (σ : fs) :
  _validate_profile_name raw = Ok n →
  σ !! AUTH_PATH = Some (File data m) →
  profile_slot_ready n σ →
  overwrite = true ∨ σ !! profile_dir_of n = None →
  (∀ text, utf8_decode data = Some text → json_loads text = None) →
  let r := save_current_as_profile raw overwrite σ in
  (value r = Raise UnicodeDecodeError ∨ value r = Raise JSONDecodeError)
  ∧ final r !! (profile_dir_of n /: "auth.json") = Some (File data now)
  ∧ final r !! (profile_dir_of n /: "meta.json")
    = σ !! (profile_dir_of n /: "meta.json").
Proof.
  intros Hn Hauth Hslot Hnew Hbad r. subst r.
  destruct (save_copy_phase raw n overwrite data m σ Hn Hauth Hslot Hnew)
    as (tr & σ3 & -> & Hdst & Htmp & Hdir & Hrest).
  cbn [value final]. unfold save_tail.
  pose proof (read_auth_info_run _ _ _ _ Hdst) as E1.
  assert (E1' : ∃ e, (e = UnicodeDecodeError ∨ e = JSONDecodeError)
    ∧ read_auth_info_from_path (profile_dir_of n /: "auth.json") σ3
      = Run [] σ3 (Raise e)).
  { destruct (utf8_decode data) as [text|] eqn:Hd.
    - rewrite (Hbad text eq_refl) in E1. eauto.
    - eauto. }
  destruct E1' as (e & He & E1').
  run_fail E1'. split_and!.
  - destruct He as [-> | ->]; auto.
  - done.
  - apply (slot_after_copy n "meta.json" σ σ3); [by left | done].
Qed.

(** ** Listing the profiles *)

Lemma load_json_pure (p : path) σ :
  seen (_load_json p σ) = [] ∧ final (_load_json p σ) = σ.
Proof.
  unfold _load_json, read_text, bind. rewrite read_bytes_run.
  cbn [value final seen].
  destruct (σ !! p) as [[data m | m] |]; cbn [value final seen]; try done.
  destruct (utf8_decode data) as [text|]; cbn [ret raise value final seen];
    [| done].
  by destruct (json_loads text).
Qed.

Lemma load_info_run (p : path) σ :
  catch (do v <- _load_json p; ret (auth_info_of v))
        (λ _, ret no_auth_info) σ
  = Run [] σ (Ok (info_at σ p)).
Proof.
  unfold info_at, catch, bind. destruct (load_json_pure p σ) as [Hs Hf].
  destruct (_load_json p σ) as [tr σ1 [v | e]]; cbn [value final seen] in *;
    subst; reflexivity.
Qed.

Lemma is_dir_run (p : path) σ :
  is_dir p σ
  = Run [] σ (Ok (match σ !! p with Some (Dir _) => true | _ => false end)).
Proof. reflexivity. Qed.

(** The loop of [list_profiles] reads only, and lists the entries that
    [listed] keeps, in order. *)
Lemma omap_cons_eq {A B : Type} (f : A → option B) (x : A) (l : list A) :
  omap f (x :: l)
  = match f x with
    | Some y => y :: omap f l
    | None => omap f l
    end.
Proof. reflexivity. Qed.

Lemma bind_pure {A B : Type} (m : M A) (k : A → M B) σ σ1 a :
  m σ = Run [] σ1 (Ok a) → bind m k σ = k a σ1.
Proof. intros Hm. rewrite (bind_ok _ _ _ _ _ _ Hm). symmetry. apply run_eta. Qed.

Ltac pure_step E := rewrite (bind_pure _ _ _ _ _ E).

Lemma scan_profiles_run (entries : list path) σ :
  scan_profiles entries σ = Run [] σ (Ok (omap (listed σ) entries)).
Proof.
  induction entries as [|entry rest IH]; [done |].
  rewrite omap_cons_eq. cbn [scan_profiles].
  pure_step (is_dir_run entry σ). unfold listed at 1.
  destruct (σ !! entry) as [[data m | m] |]; cbn [negb]; try exact IH.
  destruct (startswith (str "_") (name_of entry)); [exact IH |].
  pure_step (path_exists_run (entry /: "auth.json") σ).
  destruct (σ !! (entry /: "auth.json")); cbn [negb]; [| exact IH].
  pure_step (load_info_run (entry /: "auth.json") σ).
  pure_step IH. reflexivity.
Qed.

Lemma iterdir_run (p : path) σ :
  iterdir p σ
  = Run [] σ
      match σ !! p with
      | None => Raise FileNotFoundError
      | Some (File _ _) => Raise NotADirectoryError
      | Some (Dir _) =>
          Ok (filter (λ q, q ≠ [] ∧ parent q = p) (map_to_list σ).*1)
      end.
Proof.
  unfold iterdir, bind, get_fs. cbn [value final seen].
  by destruct (σ !! p) as [[|]|].
Qed.

Lemma list_profiles_value (σ : fs) (ps : list ProfileInfo) :
  value (list_profiles σ) = Ok ps →
  ∃ entries, ps = omap (listed σ) entries.
Proof.
  unfold list_profiles. pure_step (path_exists_run PROFILES_DIR σ).
  destruct (σ !! PROFILES_DIR) as [nd|]; cbn [negb].
  - intros Hv. apply bind_value_ok in Hv as (entries & _ & Hv).
    rewrite iterdir_run in Hv. cbn [final] in Hv.
    rewrite scan_profiles_run in Hv. cbn [value] in Hv.
    injection Hv as <-. by eexists.
  - unfold ret. cbn [value]. intros [= <-]. by exists [].
Qed.

Lemma listed_name (σ : fs) (entry : path) (p : ProfileInfo) :
  listed σ entry = Some p →
  startswith (str "_") (name p) = false
  ∧ directory p = entry ∧ name p = name_of entry
  ∧ auth_path p = entry /: "auth.json".
Proof.
  unfold listed. destruct (σ !! entry) as [[|]|]; try done.
  destruct (startswith (str "_") (name_of entry)) eqn:E; [done |].
  destruct (σ !! (entry /: "auth.json")); [| done]. by intros [= <-].
Qed.

(** C3, where the code leaves the claim: a name that begins with an
    underscore passes validation, but [list_profiles] skips every entry
    whose name begins with an underscore; after saving under such a name,
    whatever the store, no listed profile has that name. *)
Theorem underscore_profile_is_not_listed (raw n : pystr) (overwrite : bool)
    (σ : fs) (ps : list ProfileInfo) (p : ProfileInfo) :
  _validate_profile_name raw = Ok n →
  startswith (str "_") n = true →
  value (list_profiles (final (save_current_as_profile raw overwrite σ)))
  = Ok ps →
  p ∈ ps → name p ≠ n.
Proof.
  intros _ Hn Hps Hp Heq.
  apply list_profiles_value in Hps as [entries ->].
  apply list_elem_of_omap in Hp as (entry & _ & Hl).
  apply listed_name in Hl as (Hu & _). congruence.
Qed.

(** ** No partial file under a final name *)


Lemma hoare_ext {A : Type} (P I : fs → Prop) (Q : result A → fs → Prop)
    (m m' : M A) :
  (∀ σ, m σ = m' σ) → hoare P m' I Q → hoare P m I Q.
Proof. intros Heq Hm σ Hσ. rewrite Heq. by apply Hm. Qed.


Lemma hoare_catch {A : Type} (P I : fs → Prop) (R Q : result A → fs → Prop)
    (m : M A) (h : exn → M A) :
  hoare P m I R →
  (∀ e, hoare (R (Raise e)) (h e) I Q) →
  (∀ a s, R (Ok a) s → Q (Ok a) s) →
  hoare P (catch m h) I Q.
Proof.
  intros Hm Hh Hok σ Hσ. destruct (Hm σ Hσ) as [Hs Hf]. unfold catch.
  destruct (value (m σ)) as [a | e] eqn:E; cbn [value final seen].
  - split; [done |]. rewrite E. by apply Hok.
  - destruct (Hh e _ Hf) as [Hs' Hf']. split; [| done].
    apply Forall_app. by split.
Qed.










Lemma ow_save_tail (n : pystr) :
  only_writes (λ p, p = profile_dir_of n /: "meta.json"
                    ∨ p = profile_dir_of n /: "meta.json.tmp")
    (save_tail n).
Proof.
  unfold save_tail.
  apply ow_bind; [apply ow_read_auth_info_from_path | intros info].
  apply ow_bind; [| intros _; apply ow_ret].
  apply ow_write_text_private; [by left |].
  right. unfold child. by rewrite parent_snoc, name_of_snoc.
Qed.

Lemma ow_copy_to_profile (n : pystr) :
  only_writes (λ p, p = profile_dir_of n /: "auth.json"
                    ∨ p = profile_dir_of n /: "auth.json.tmp")
    (_copy_file_private AUTH_PATH (profile_dir_of n /: "auth.json")).
Proof.
  apply ow_copy_file_private; [by left |].
  right. unfold child. by rewrite parent_snoc, name_of_snoc.
Qed.





Lemma get_fs_run σ : get_fs σ = Run [] σ (Ok σ).
Proof. reflexivity. Qed.








(** ** Removing a profile *)

Lemma pruned_refl (p : path) (σ : fs) : pruned p σ σ.
Proof. intros q. by left. Qed.

Lemma pruned_trans (p : path) (σ s1 s2 : fs) :
  pruned p σ s1 → pruned p s1 s2 → pruned p σ s2.
Proof.
  intros H1 H2 q. destruct (H2 q) as [E | [E Hq]].
  - rewrite E. apply H1.
  - right. done.
Qed.

Lemma pruned_mono (p p' : path) (σ s : fs) :
  p `prefix_of` p' → pruned p' σ s → pruned p σ s.
Proof.
  intros Hp Hs q. destruct (Hs q) as [E | [E Hq]]; [by left | right].
  split; [done | by etrans].
Qed.

Lemma pruned_delete (p : path) (σ : fs) : pruned p σ (delete p σ).
Proof.
  intros q. destruct (decide (q = p)) as [-> | Hne].
  - right. by rewrite lookup_delete_eq.
  - left. by rewrite lookup_delete_ne.
Qed.

Lemma prunes_pure {A : Type} (p : path) (m : M A) :
  (∀ σ, seen (m σ) = [] ∧ final (m σ) = σ) → prunes p m.
Proof.
  intros Hm σ s Hs. destruct (Hm σ) as [E1 E2]. rewrite E1, E2 in Hs.
  split_states Hs. subst s. apply pruned_refl.
Qed.

Lemma prunes_bind {A B : Type} (p : path) (m : M A) (k : A → M B) :
  prunes p m → (∀ a, prunes p (k a)) → prunes p (bind m k).
Proof.
  intros Hm Hk σ s Hs. apply bind_states in Hs as [Hs | (a & Ha & Hs)].
  - by apply Hm.
  - eapply pruned_trans; [apply Hm, final_in_states | by eapply Hk].
Qed.

Lemma prunes_mono {A : Type} (p p' : path) (m : M A) :
  p `prefix_of` p' → prunes p' m → prunes p m.
Proof. intros Hp Hm σ s Hs. eapply pruned_mono; [done | by apply Hm]. Qed.

Lemma prunes_unlink (p : path) : prunes p (os_unlink p).
Proof.
  intros σ s Hs. unfold os_unlink, bind, get_fs in Hs. cbn in Hs.
  destruct (σ !! p) as [[|]|]; cbn in Hs; split_states Hs; subst s;
    auto using pruned_refl, pruned_delete.
Qed.

Lemma prunes_rmdir (p : path) : prunes p (os_rmdir p).
Proof.
  intros σ s Hs. unfold os_rmdir, bind, get_fs in Hs. cbn in Hs.
  destruct (σ !! p) as [[|]|]; cbn in Hs; [| case_bool_decide |];
    cbn in Hs; split_states Hs; subst s;
    auto using pruned_refl, pruned_delete.
Qed.

Lemma elem_of_entries (σ : fs) (p q : path) :
  q ∈ entries_of σ p ↔ q ≠ [] ∧ parent q = p ∧ is_Some (σ !! q).
Proof.
  unfold entries_of. rewrite list_elem_of_filter, list_elem_of_fmap. split.
  - intros [[Hq Hp] ([k n] & -> & Hk)]. split_and!; [done.. |].
    apply elem_of_map_to_list in Hk. by exists n.
  - intros (Hq & Hp & [n Hn]). split; [done |].
    exists (q, n). split; [done |]. by apply elem_of_map_to_list.
Qed.

Lemma NoDup_entries (σ : fs) (p : path) : NoDup (entries_of σ p).
Proof. apply NoDup_filter, NoDup_fst_map_to_list. Qed.

Lemma entry_under (p q : path) :
  q ≠ [] → parent q = p →
  p `prefix_of` q ∧ length q = S (length p).
Proof.
  intros Hq <-. pose proof (path_split q Hq) as E. split.
  - by exists [name_of q].
  - rewrite E at 1. rewrite length_app. cbn. lia.
Qed.

Lemma prunes_bind_val {A B : Type} (p : path) (m : M A) (k : A → M B) :
  prunes p m → (∀ σ a, value (m σ) = Ok a → prunes p (k a)) →
  prunes p (bind m k).
Proof.
  intros Hm Hk σ s Hs. apply bind_states in Hs as [Hs | (a & Ha & Hs)].
  - by apply Hm.
  - eapply pruned_trans; [apply Hm, final_in_states | by eapply Hk].
Qed.

Lemma prunes_for_each {A : Type} (p : path) (f : A → M unit) (l : list A) :
  (∀ x, x ∈ l → prunes p (f x)) → prunes p (for_each f l).
Proof.
  induction l as [| x l IH]; intros Hf; cbn [for_each].
  - by apply prunes_pure.
  - apply prunes_bind; [apply Hf; left |].
    intros _. apply IH. intros y Hy. apply Hf. by right.
Qed.

Lemma iterdir_entries (p : path) σ (entries : list path) :
  value (iterdir p σ) = Ok entries → entries = entries_of σ p.
Proof.
  rewrite iterdir_run. cbn. destruct (σ !! p) as [[|]|]; [done | | done].
  by intros [= <-].
Qed.

(** Whatever it meets, [shutil.rmtree(p)] does nothing but remove paths
    below [p]. *)
Lemma prunes_rmtree_from (d : nat) (p : path) : prunes p (rmtree_from d p).
Proof.
  revert p. induction d as [| d IH]; intros p; cbn [rmtree_from].
  - by apply prunes_pure.
  - apply prunes_bind_val.
    { apply prunes_pure. intros σ. by rewrite iterdir_run. }
    intros σ entries He. apply iterdir_entries in He as ->.
    apply prunes_bind; [| intros _; apply prunes_rmdir].
    apply prunes_for_each. intros q Hq.
    apply elem_of_entries in Hq as (Hq & Hp & _).
    destruct (entry_under p q Hq Hp) as [Hpre _].
    apply prunes_bind.
    { apply prunes_pure. intros σ'. by rewrite is_dir_run. }
    intros [|]; (eapply prunes_mono; [exact Hpre |]);
      [apply IH | apply prunes_unlink].
Qed.

Lemma prunes_rmtree (p : path) : prunes p (shutil_rmtree p).
Proof.
  apply prunes_bind; [by apply prunes_pure |].
  intros σ. apply prunes_rmtree_from.
Qed.

Lemma prunes_delete_profile (raw : pystr) :
  prunes (profile_dir_of (strip raw)) (delete_profile raw).
Proof.
  unfold delete_profile. apply prunes_bind_val.
  { apply prunes_pure. intros σ. by rewrite lift_run. }
  intros σ n Hn. rewrite lift_run in Hn. cbn in Hn.
  apply validate_ok_iff in Hn as [-> _].
  apply prunes_bind.
  { apply prunes_pure. intros σ'. by rewrite path_exists_run. }
  intros [|]; cbn [negb]; [apply prunes_rmtree | by apply prunes_pure].
Qed.

Lemma bind_val {A B : Type} (m : M A) (k : A → M B) σ a :
  value (m σ) = Ok a →
  value (bind m k σ) = value (k a (final (m σ)))
  ∧ final (bind m k σ) = final (k a (final (m σ))).
Proof. intros E. unfold bind. by rewrite E. Qed.

Lemma pruned_keeps (p : path) (σ s : fs) (k : path) :
  pruned p σ s → is_Some (s !! k) → s !! k = σ !! k.
Proof.
  intros Hs [n Hn]. destruct (Hs k) as [E | [E _]]; [done | congruence].
Qed.

Lemma pruned_off (p : path) (σ s : fs) (k : path) :
  pruned p σ s → ¬ p `prefix_of` k → s !! k = σ !! k.
Proof. intros Hs Hk. destruct (Hs k) as [E | [_ E]]; done. Qed.

Lemma deep_pruned (p q : path) (σ s : fs) (d : nat) :
  pruned q σ s → deep σ p d → deep s p d.
Proof.
  intros Hs Hd k Hk Hpk. apply Hd; [| done].
  by rewrite <- (pruned_keeps _ _ _ _ Hs Hk).
Qed.

Lemma deep_entry (p q : path) (σ : fs) (d : nat) :
  q ≠ [] → parent q = p → is_Some (σ !! q) → deep σ p d →
  d ≠ 0%nat ∧ deep σ q (pred d).
Proof.
  intros Hq Hp Hs Hd. destruct (entry_under p q Hq Hp) as [Hpre Hlen].
  pose proof (Hd q Hs Hpre) as Hle. split; [lia |].
  intros k Hk Hqk. pose proof (Hd k Hk ltac:(by etrans)). lia.
Qed.

Lemma rm_entry_ok (d : nat) (p q : path) σ :
  (∀ q σ, is_directory (σ !! q) → d ≠ 0%nat → deep σ q (pred d) →
          value (rmtree_from d q σ) = Ok tt
          ∧ final (rmtree_from d q σ) !! q = None) →
  q ≠ [] → parent q = p → is_Some (σ !! q) → deep σ p d →
  let r := (do sub <- is_dir q;
            if sub then rmtree_from d q else os_unlink q) σ in
  value r = Ok tt ∧ final r !! q = None.
Proof.
  intros Hrec Hq Hp Hs Hd. cbn zeta.
  rewrite (bind_pure _ _ _ _ _ (is_dir_run q σ)).
  destruct (deep_entry p q σ d Hq Hp Hs Hd) as [Hd0 Hdq].
  destruct Hs as [n Hn]. rewrite Hn. destruct n as [data m | m].
  - unfold os_unlink. rewrite (bind_pure _ _ _ _ _ (get_fs_run σ)), Hn.
    cbn. by rewrite lookup_delete_eq.
  - apply Hrec; [by rewrite Hn | done..].
Qed.

Lemma rm_loop_ok (d : nat) (p : path) :
  (∀ q σ, is_directory (σ !! q) → d ≠ 0%nat → deep σ q (pred d) →
          value (rmtree_from d q σ) = Ok tt
          ∧ final (rmtree_from d q σ) !! q = None) →
  ∀ l σ,
    NoDup l →
    (∀ q, q ∈ l → q ≠ [] ∧ parent q = p ∧ is_Some (σ !! q)) →
    deep σ p d →
    let r := for_each (λ q, do sub <- is_dir q;
                            if sub then rmtree_from d q else os_unlink q)
                      l σ in
    value r = Ok tt ∧ ∀ q, q ∈ l → final r !! q = None.
Proof.
  intros Hrec l. induction l as [| q l IH]; intros σ Hnd Hl Hd; cbn zeta.
  - split; [done |]. intros q Hq. by apply elem_of_nil in Hq.
  - apply NoDup_cons in Hnd as [Hql Hnd].
    destruct (Hl q) as (Hq & Hp & Hs); [left |].
    destruct (rm_entry_ok d p q σ Hrec Hq Hp Hs Hd) as [Hv Hf].
    set (body := λ q, do sub <- is_dir q;
                      if sub then rmtree_from d q else os_unlink q) in *.
    change (for_each body (q :: l) σ)
      with (bind (body q) (λ _, for_each body l) σ).
    change (value (body q σ) = Ok tt) in Hv.
    change (final (body q σ) !! q = None) in Hf.
    set (σ1 := final (body q σ)) in *.
    assert (Hpr : pruned q σ σ1).
    { assert (Hb : prunes q (body q)).
      { apply prunes_bind; [apply prunes_pure; intros s; by rewrite is_dir_run |].
        intros [|]; [apply prunes_rmtree_from | apply prunes_unlink]. }
      apply Hb, final_in_states. }
    destruct (bind_val (body q) (λ _, for_each body l) σ tt Hv) as [-> ->].
    fold σ1.
    destruct (IH σ1) as [Hv2 Hf2]; [done | | by eapply deep_pruned |].
    { intros q' Hq'. destruct (Hl q') as (Hq'0 & Hp' & Hs'); [by right |].
      split_and!; [done.. |].
      rewrite (pruned_off _ _ _ _ Hpr); [done |].
      intros Hpre. apply Hql.
      destruct (entry_under p q Hq Hp) as [_ L1].
      destruct (entry_under p q' Hq'0 Hp') as [_ L2].
      assert (q = q') as ->; [| done].
      destruct Hpre as [r ->]. rewrite length_app in L2.
      destruct r; [by rewrite app_nil_r | cbn in L2; lia]. }
    split; [done |]. intros q' Hq'. apply elem_of_cons in Hq' as [-> | Hq'].
    + assert (Hl2 : pruned p σ1 (final (for_each body l σ1))).
      { assert (Hb : prunes p (for_each body l)).
        { apply prunes_for_each. intros x Hx.
          destruct (Hl x) as (Hx0 & Hxp & _); [by right |].
          destruct (entry_under p x Hx0 Hxp) as [Hpre _].
          apply prunes_bind;
            [apply prunes_pure; intros s; by rewrite is_dir_run |].
          intros [|]; (eapply prunes_mono; [exact Hpre |]);
            [apply prunes_rmtree_from | apply prunes_unlink]. }
        apply Hb, final_in_states. }
      destruct (Hl2 q) as [E | [E _]]; [congruence | done].
    + by apply Hf2.
Qed.

Lemma prunes_ow {A : Type} (p : path) (m : M A) :
  prunes p m → only_writes (λ k, p `prefix_of` k) m.
Proof. intros Hm σ s k Hs Hk. eapply pruned_off; [by apply Hm | done]. Qed.

Lemma ow_for_each {A : Type} (W : path → Prop) (f : A → M unit) (l : list A) :
  (∀ x, x ∈ l → only_writes W (f x)) → only_writes W (for_each f l).
Proof.
  induction l as [| x l IH]; intros Hf; cbn [for_each].
  - apply ow_ret.
  - apply ow_bind; [apply Hf; left |].
    intros _. apply IH. intros y Hy. apply Hf. by right.
Qed.

Lemma os_rmdir_empty (q : path) (m : float) σ :
  σ !! q = Some (Dir m) → entries_of σ q = [] →
  os_rmdir q σ = Run [delete q σ] (delete q σ) (Ok tt).
Proof.
  intros Hq He. unfold os_rmdir.
  rewrite (bind_pure _ _ _ _ _ (get_fs_run σ)), Hq.
  by rewrite bool_decide_eq_true_2.
Qed.

(** On a directory [shutil.rmtree] returns, and the directory is gone; the
    bound on the nesting is not reached. *)
Lemma rmtree_from_ok (n : nat) :
  ∀ q σ, is_directory (σ !! q) → n ≠ 0%nat → deep σ q (pred n) →
         value (rmtree_from n q σ) = Ok tt
         ∧ final (rmtree_from n q σ) !! q = None.
Proof.
  induction n as [| d IH]; intros q σ Hq Hn Hd; [done |].
  cbn [pred] in Hd. cbn [rmtree_from].
  destruct (σ !! q) as [[| m] |] eqn:Eq; try done.
  assert (Ei : iterdir q σ = Run [] σ (Ok (entries_of σ q)))
    by (by rewrite iterdir_run, Eq).
  rewrite (bind_pure _ _ _ _ _ Ei).
  set (body := λ q, do sub <- is_dir q;
                    if sub then rmtree_from d q else os_unlink q).
  destruct (rm_loop_ok d q IH (entries_of σ q) σ) as [Hv Hgone];
    [apply NoDup_entries | by intros x Hx%elem_of_entries | done |].
  fold body in Hv, Hgone.
  set (σ2 := final (for_each body (entries_of σ q) σ)) in *.
  assert (Hb : ∀ x, x ∈ entries_of σ q → prunes x (body x)).
  { intros x _. apply prunes_bind;
      [apply prunes_pure; intros s; by rewrite is_dir_run |].
    intros [|]; [apply prunes_rmtree_from | apply prunes_unlink]. }
  assert (Hq2 : σ2 !! q = Some (Dir m)).
  { rewrite <- Eq.
    apply (ow_for_each (λ k, ∃ x, x ∈ entries_of σ q ∧ x `prefix_of` k)
             body (entries_of σ q)) with (s := σ2); [| apply final_in_states |].
    - intros x Hx. eapply ow_mono; [| apply prunes_ow, Hb, Hx].
      intros k Hk. by exists x.
    - intros (x & Hx & Hpre). apply elem_of_entries in Hx as (Hx0 & Hxp & _).
      destruct (entry_under q x Hx0 Hxp) as [_ L].
      apply prefix_length in Hpre. lia. }
  assert (Hpr : pruned q σ σ2).
  { apply (prunes_for_each q body (entries_of σ q)); [| apply final_in_states].
    intros x Hx. eapply prunes_mono; [| by apply Hb].
    apply elem_of_entries in Hx as (Hx0 & Hxp & _).
    by destruct (entry_under q x Hx0 Hxp). }
  assert (He : entries_of σ2 q = []).
  { apply elem_of_nil_inv. intros x Hx.
    apply elem_of_entries in Hx as (Hx0 & Hxp & Hs).
    assert (Hin : x ∈ entries_of σ q).
    { apply elem_of_entries. split_and!; [done.. |].
      by rewrite <- (pruned_keeps _ _ _ _ Hpr Hs). }
    rewrite (Hgone x Hin) in Hs. by destruct Hs. }
  destruct (bind_val (for_each body (entries_of σ q)) (λ _, os_rmdir q) σ tt Hv)
    as [-> ->].
  fold σ2. rewrite (os_rmdir_empty q m σ2 Hq2 He). cbn.
  by rewrite lookup_delete_eq.
Qed.

Lemma deep_max (σ : fs) (p : path) : deep σ p (max_depth σ).
Proof.
  intros q [n Hn] _. unfold max_depth.
  assert (length q ≤ max_list (length <$> (map_to_list σ).*1))%nat; [| lia].
  apply max_list_elem_of_le, list_elem_of_fmap_2, list_elem_of_fmap.
  exists (q, n). split; [done |]. by apply elem_of_map_to_list.
Qed.

Lemma shutil_rmtree_ok (p : path) σ :
  is_directory (σ !! p) →
  value (shutil_rmtree p σ) = Ok tt ∧ final (shutil_rmtree p σ) !! p = None.
Proof.
  intros Hp. unfold shutil_rmtree.
  rewrite (bind_pure _ _ _ _ _ (get_fs_run σ)).
  apply rmtree_from_ok; [done.. |]. apply deep_max.
Qed.

Lemma shutil_rmtree_not_dir (p : path) σ :
  ¬ is_directory (σ !! p) →
  shutil_rmtree p σ
  = Run [] σ (Raise match σ !! p with
                    | Some _ => NotADirectoryError
                    | None => FileNotFoundError
                    end).
Proof.
  intros Hp. unfold shutil_rmtree.
  rewrite (bind_pure _ _ _ _ _ (get_fs_run σ)). cbn [rmtree_from].
  assert (Ei : iterdir p σ
               = Run [] σ (Raise match σ !! p with
                                 | Some _ => NotADirectoryError
                                 | None => FileNotFoundError
                                 end)).
  { rewrite iterdir_run. by destruct (σ !! p) as [[|]|]. }
  by rewrite (bind_raise _ _ _ _ _ _ Ei).
Qed.

Lemma delete_profile_run (raw n : pystr) σ :
  _validate_profile_name raw = Ok n →
  delete_profile raw σ
  = match σ !! profile_dir_of n with
    | Some _ => shutil_rmtree (profile_dir_of n) σ
    | None => Run [] σ (Raise FileNotFoundError)
    end.
Proof.
  intros Hn. unfold delete_profile.
  assert (E : lift (_validate_profile_name raw) σ = Run [] σ (Ok n))
    by (by rewrite lift_run, Hn).
  rewrite (bind_pure _ _ _ _ _ E).
  rewrite (bind_pure _ _ _ _ _ (path_exists_run _ σ)).
  change (PROFILES_DIR ++ [n]) with (profile_dir_of n).
  destruct (σ !! profile_dir_of n); reflexivity.
Qed.

Lemma is_directory_Some (o : option node) : is_directory o → is_Some o.
Proof. by destruct o as [[|]|]. Qed.

Lemma rooted_entry (σ : fs) (q k : path) :
  rooted σ q → is_Some (σ !! k) → q `prefix_of` k → k ≠ q →
  ∃ x, x ∈ entries_of σ q ∧ x `prefix_of` k.
Proof.
  intros Hr Hk [r ->]. revert Hk. induction r as [| a r IH] using rev_ind.
  { intros _ Hne. by rewrite app_nil_r in Hne. }
  intros Hk _. destruct (decide (r = [])) as [-> | Hr0].
  - exists (q ++ [a]). split; [| done]. apply elem_of_entries.
    split_and!; [by destruct q | apply parent_snoc | done].
  - assert (Hp : is_Some (σ !! (q ++ r))).
    { apply is_directory_Some.
      rewrite <- (parent_snoc (q ++ r) a), <- app_assoc.
      apply Hr; [done | by eexists |].
      intros E. apply (snoc_app_ne q (r ++ [a])); [by destruct r | done]. }
    destruct IH as (x & Hx & Hpre); [done | |].
    { intros E. by apply (snoc_app_ne q r). }
    exists x. split; [done |]. etrans; [exact Hpre |].
    exists [a]. by rewrite app_assoc.
Qed.

Lemma siblings_apart (p x y k : path) :
  x ≠ [] → parent x = p → y ≠ [] → parent y = p →
  x `prefix_of` k → y `prefix_of` k → x = y.
Proof.
  intros Hx Hxp Hy Hyp [r1 ->] [r2 E].
  destruct (entry_under p x Hx Hxp) as [_ L1].
  destruct (entry_under p y Hy Hyp) as [_ L2].
  apply (f_equal (take (length x))) in E.
  rewrite take_app_length in E. rewrite L1, <- L2 in E.
  by rewrite take_app_length in E.
Qed.

Lemma rooted_pruned (p x y : path) (σ s : fs) :
  x ≠ [] → parent x = p → y ≠ [] → parent y = p → x ≠ y →
  pruned y σ s → rooted σ x → rooted s x.
Proof.
  intros Hx Hxp Hy Hyp Hne Hs Hr k Hk Hpre Hkx.
  assert (Eo : ∀ k', x `prefix_of` k' → s !! k' = σ !! k').
  { intros k' Hk'. apply (pruned_off _ _ _ _ Hs). intros Hy'.
    apply Hne. by eapply siblings_apart. }
  rewrite Eo.
  - apply Hr; [by rewrite <- Eo | done..].
  - destruct Hpre as [r ->]. destruct r as [| a r] using rev_ind.
    + by rewrite app_nil_r in Hkx.
    + rewrite app_assoc, parent_snoc. by eexists.
Qed.

Lemma rooted_below (p x : path) (σ : fs) :
  p `prefix_of` x → rooted σ p → rooted σ x.
Proof.
  intros Hpx Hr k Hk Hpre Hkx.
  destruct (decide (k = p)) as [-> | Hkp].
  - destruct Hkx. apply (anti_symm prefix); done.
  - apply Hr; [done | by etrans | done].
Qed.

Lemma rm_entry_clears (d : nat) (p q : path) σ :
  (∀ q σ, is_directory (σ !! q) → d ≠ 0%nat → deep σ q (pred d) →
          rooted σ q →
          ∀ k : path, q `prefix_of` k → final (rmtree_from d q σ) !! k = None) →
  q ≠ [] → parent q = p → is_Some (σ !! q) → deep σ p d → rooted σ q →
  ∀ k : path, q `prefix_of` k →
       final ((do sub <- is_dir q;
               if sub then rmtree_from d q else os_unlink q) σ) !! k = None.
Proof.
  intros Hrec Hq Hp Hs Hd Hr k Hk.
  rewrite (bind_pure _ _ _ _ _ (is_dir_run q σ)).
  destruct (deep_entry p q σ d Hq Hp Hs Hd) as [Hd0 Hdq].
  destruct Hs as [n Hn]. rewrite Hn. destruct n as [data m | m].
  - unfold os_unlink. rewrite (bind_pure _ _ _ _ _ (get_fs_run σ)), Hn.
    cbn. destruct (decide (k = q)) as [-> | Hne].
    + by rewrite lookup_delete_eq.
    + rewrite lookup_delete_ne by done.
      destruct (σ !! k) as [nk |] eqn:Ek; [| done].
      destruct (rooted_entry σ q k Hr) as (x & Hx & _); [done.. |].
      apply elem_of_entries in Hx as (Hx0 & Hxp & Hxs).
      destruct (entry_under q x Hx0 Hxp) as [Hpre L].
      assert (Hdir : is_directory (σ !! parent x)).
      { apply Hr; [done.. |]. intros ->. lia. }
      by rewrite Hxp, Hn in Hdir.
  - apply Hrec; [by rewrite Hn | done..].
Qed.

Lemma rm_loop_clears (d : nat) (p : path) :
  (∀ q σ, is_directory (σ !! q) → d ≠ 0%nat → deep σ q (pred d) →
          rooted σ q →
          ∀ k : path, q `prefix_of` k → final (rmtree_from d q σ) !! k = None) →
  ∀ l σ,
    NoDup l →
    (∀ q, q ∈ l → q ≠ [] ∧ parent q = p ∧ is_Some (σ !! q) ∧ rooted σ q) →
    deep σ p d →
    ∀ q k : path, q ∈ l → q `prefix_of` k →
      final (for_each (λ q, do sub <- is_dir q;
                            if sub then rmtree_from d q else os_unlink q)
                      l σ) !! k = None.
Proof.
  intros Hrec l. induction l as [| q l IH]; intros σ Hnd Hl Hd x k Hx Hk.
  { by apply elem_of_nil in Hx. }
  apply NoDup_cons in Hnd as [Hql Hnd].
  destruct (Hl q) as (Hq & Hp & Hs & Hr); [left |].
  assert (Hv : value ((do sub <- is_dir q;
                       if sub then rmtree_from d q else os_unlink q) σ)
               = Ok tt).
  { apply (rm_entry_ok d p q σ); [| done..].
    intros q' σ' Hq' Hd0 Hd'. by apply rmtree_from_ok. }
  pose proof (rm_entry_clears d p q σ Hrec Hq Hp Hs Hd Hr) as Hc.
  set (body := λ q, do sub <- is_dir q;
                    if sub then rmtree_from d q else os_unlink q) in *.
  change (for_each body (q :: l) σ)
    with (bind (body q) (λ _, for_each body l) σ).
  change (value (body q σ) = Ok tt) in Hv.
  change (∀ k : path, q `prefix_of` k → final (body q σ) !! k = None) in Hc.
  set (σ1 := final (body q σ)) in *.
  assert (Hb : ∀ y, prunes y (body y)).
  { intros y. apply prunes_bind;
      [apply prunes_pure; intros s; by rewrite is_dir_run |].
    intros [|]; [apply prunes_rmtree_from | apply prunes_unlink]. }
  assert (Hpr : pruned q σ σ1) by apply Hb, final_in_states.
  destruct (bind_val (body q) (λ _, for_each body l) σ tt Hv) as [_ ->].
  fold σ1. apply elem_of_cons in Hx as [-> | Hx].
  - assert (Hl2 : pruned p σ1 (final (for_each body l σ1))).
    { apply (prunes_for_each p body l); [| apply final_in_states].
      intros y Hy. destruct (Hl y) as (Hy0 & Hyp & _); [by right |].
      eapply prunes_mono; [| apply Hb].
      by destruct (entry_under p y Hy0 Hyp). }
    destruct (Hl2 k) as [E | [E _]]; [| done]. rewrite E. by apply Hc.
  - eapply (IH σ1 Hnd); [| by eapply deep_pruned | exact Hx | exact Hk].
    intros y Hy. destruct (Hl y) as (Hy0 & Hyp & Hys & Hyr); [by right |].
    assert (Hne : y ≠ q) by (by intros ->).
    split_and!; [done.. | |].
    + rewrite (pruned_off _ _ _ _ Hpr); [done |].
      intros Hpre. apply Hne. symmetry.
      by eapply (siblings_apart p q y y).
    + by eapply (rooted_pruned p y q σ σ1).
Qed.

(** On a tree, [shutil.rmtree] leaves nothing at or below the directory. *)
Lemma rmtree_from_clears (n : nat) :
  ∀ q σ, is_directory (σ !! q) → n ≠ 0%nat → deep σ q (pred n) →
         rooted σ q →
         ∀ k : path, q `prefix_of` k → final (rmtree_from n q σ) !! k = None.
Proof.
  induction n as [| d IH]; intros q σ Hq Hn Hd Hr k Hk; [done |].
  cbn [pred] in Hd. cbn [rmtree_from].
  destruct (σ !! q) as [[| m] |] eqn:Eq; try done.
  assert (Ei : iterdir q σ = Run [] σ (Ok (entries_of σ q)))
    by (by rewrite iterdir_run, Eq).
  rewrite (bind_pure _ _ _ _ _ Ei).
  set (body := λ q, do sub <- is_dir q;
                    if sub then rmtree_from d q else os_unlink q).
  assert (Hl : ∀ x, x ∈ entries_of σ q →
                    x ≠ [] ∧ parent x = q ∧ is_Some (σ !! x) ∧ rooted σ x).
  { intros x Hx. apply elem_of_entries in Hx as (Hx0 & Hxp & Hxs).
    split_and!; [done.. |]. eapply rooted_below; [| done].
    by destruct (entry_under q x Hx0 Hxp). }
  destruct (rm_loop_ok d q (rmtree_from_ok d) (entries_of σ q) σ) as [Hv _];
    [apply NoDup_entries | by intros x Hx%elem_of_entries | done |].
  pose proof (rm_loop_clears d q IH (entries_of σ q) σ
                (NoDup_entries σ q) Hl Hd) as Hc.
  fold body in Hv, Hc.
  set (σ2 := final (for_each body (entries_of σ q) σ)) in *.
  assert (Hb : ∀ y, prunes y (body y)).
  { intros y. apply prunes_bind;
      [apply prunes_pure; intros s; by rewrite is_dir_run |].
    intros [|]; [apply prunes_rmtree_from | apply prunes_unlink]. }
  assert (Hpr : pruned q σ σ2).
  { apply (prunes_for_each q body (entries_of σ q)); [| apply final_in_states].
    intros x Hx. eapply prunes_mono; [| by apply Hb].
    apply elem_of_entries in Hx as (Hx0 & Hxp & _).
    by destruct (entry_under q x Hx0 Hxp). }
  assert (Hbelow : ∀ k' : path, q `prefix_of` k' → k' ≠ q → σ2 !! k' = None).
  { intros k' Hk' Hne. destruct (σ2 !! k') as [nk |] eqn:Ek; [| done].
    assert (Hs : is_Some (σ !! k')).
    { rewrite <- (pruned_keeps _ _ _ _ Hpr); by rewrite Ek. }
    destruct (rooted_entry σ q k' Hr Hs Hk' Hne) as (x & Hx & Hpre).
    rewrite (Hc x k' Hx Hpre) in Ek. done. }
  destruct (bind_val (for_each body (entries_of σ q)) (λ _, os_rmdir q) σ tt Hv)
    as [_ ->].
  fold σ2.
  assert (prunes q (os_rmdir q)) as Hrm by apply prunes_rmdir.
  destruct (decide (k = q)) as [-> | Hne].
  - pose proof (rmtree_from_ok (S d) q σ) as Hok. cbn [rmtree_from] in Hok.
    rewrite (bind_pure _ _ _ _ _ Ei) in Hok. fold body in Hok.
    destruct (bind_val (for_each body (entries_of σ q)) (λ _, os_rmdir q) σ tt
                Hv) as [_ E].
    rewrite E in Hok. apply Hok; [by rewrite Eq | done..].
  - destruct (Hrm σ2 (final (os_rmdir q σ2)) (final_in_states _ _) k)
      as [E | [E _]]; [| done].
    rewrite E. by apply Hbelow.
Qed.

Lemma shutil_rmtree_clears (p : path) σ :
  is_directory (σ !! p) → rooted σ p →
  ∀ k : path, p `prefix_of` k → final (shutil_rmtree p σ) !! k = None.
Proof.
  intros Hp Hr k Hk. unfold shutil_rmtree.
  rewrite (bind_pure _ _ _ _ _ (get_fs_run σ)).
  apply rmtree_from_clears; [done.. | apply deep_max | done | done].
Qed.

(** Deleting a profile whose entry is a directory returns.  Where the store
    is a tree below that directory, nothing is left at or below it; every
    other path holds what it held. *)
Theorem delete_profile_removes (raw n : pystr) (σ : fs) :
  _validate_profile_name raw = Ok n →
  is_directory (σ !! profile_dir_of n) →
  rooted σ (profile_dir_of n) →
  let σ' := final (delete_profile raw σ) in
  value (delete_profile raw σ) = Ok tt
  ∧ (∀ k : path, profile_dir_of n `prefix_of` k → σ' !! k = None)
  ∧ (∀ k : path, ¬ profile_dir_of n `prefix_of` k → σ' !! k = σ !! k).
Proof.
  intros Hn Hd Hr. cbn zeta.
  assert (Hpr : pruned (profile_dir_of n) σ (final (delete_profile raw σ))).
  { apply validate_ok_iff in Hn as Hs. destruct Hs as [-> _].
    apply prunes_delete_profile, final_in_states. }
  rewrite (delete_profile_run raw n σ Hn) in *.
  destruct (σ !! profile_dir_of n) as [[|]|] eqn:E; try done.
  assert (Hd' : is_directory (σ !! profile_dir_of n)) by (by rewrite E).
  split_and!.
  - by apply shutil_rmtree_ok.
  - by apply shutil_rmtree_clears.
  - intros k Hk. by apply (pruned_off _ _ _ _ Hpr).
Qed.

(** Whatever the name and the store, and whether it returns or raises,
    [delete_profile] never creates or rewrites anything: at every moment
    each path holds what it held at the start or, below the directory of
    the profile named, nothing.  The active credential and the other
    profiles are never touched. *)
Theorem delete_profile_touches_nothing_else (raw : pystr) (σ s : fs) :
  s ∈ states_of (delete_profile raw) σ →
  (∀ k : path, s !! k = σ !! k
               ∨ (s !! k = None ∧ profile_dir_of (strip raw) `prefix_of` k))
  ∧ s !! AUTH_PATH = σ !! AUTH_PATH
  ∧ (∀ n leaf, n ≠ strip raw →
               s !! (profile_dir_of n /: leaf)
               = σ !! (profile_dir_of n /: leaf)).
Proof.
  intros Hs.
  assert (Hpr : pruned (profile_dir_of (strip raw)) σ s).
  { unfold states_of in Hs. apply elem_of_cons in Hs as [-> | Hs].
    - apply pruned_refl.
    - by apply prunes_delete_profile. }
  split_and!.
  - exact Hpr.
  - apply (pruned_off _ _ _ _ Hpr). intros [r E]. norm_paths.
    apply app_inv_head in E. by destruct r.
  - intros n leaf Hne. apply (pruned_off _ _ _ _ Hpr). intros [r E].
    norm_paths. apply app_inv_head in E. injection E. congruence.
Qed.

(** [delete_profile] refuses, and changes nothing, when the name is not a
    valid profile name, when no entry of that name exists, and when the
    entry is a regular file. *)
Theorem delete_profile_refuses (raw : pystr) (σ : fs) :
  (∀ e, _validate_profile_name raw = Raise e →
        delete_profile raw σ = Run [] σ (Raise e))
  ∧ (∀ n, _validate_profile_name raw = Ok n →
          σ !! profile_dir_of n = None →
          delete_profile raw σ = Run [] σ (Raise FileNotFoundError))
  ∧ (∀ n data m, _validate_profile_name raw = Ok n →
                 σ !! profile_dir_of n = Some (File data m) →
                 delete_profile raw σ = Run [] σ (Raise NotADirectoryError)).
Proof.
  split_and!.
  - intros e He. unfold delete_profile.
    assert (E : lift (_validate_profile_name raw) σ = Run [] σ (Raise e))
      by (by rewrite lift_run, He).
    by rewrite (bind_raise _ _ _ _ _ _ E).
  - intros n Hn E. by rewrite (delete_profile_run raw n σ Hn), E.
  - intros n data m Hn E. rewrite (delete_profile_run raw n σ Hn), E.
    rewrite shutil_rmtree_not_dir; rewrite E; [done | by intros []].
Qed.

(** ** The listing *)

Lemma list_profiles_run (σ : fs) :
  list_profiles σ
  = Run [] σ
      match σ !! PROFILES_DIR with
      | None => Ok []
      | Some (File _ _) => Raise NotADirectoryError
      | Some (Dir _) =>
          Ok (omap (listed σ)
                (sorted_by_lower_name (entries_of σ PROFILES_DIR)))
      end.
Proof.
  unfold list_profiles. pure_step (path_exists_run PROFILES_DIR σ).
  destruct (σ !! PROFILES_DIR) as [[data m | m] |] eqn:E; cbn [negb];
    [| | done].
  - assert (Ei : iterdir PROFILES_DIR σ = Run [] σ (Raise NotADirectoryError))
      by (by rewrite iterdir_run, E).
    by rewrite (bind_raise _ _ _ _ _ _ Ei).
  - assert (Ei : iterdir PROFILES_DIR σ
                 = Run [] σ (Ok (entries_of σ PROFILES_DIR)))
      by (by rewrite iterdir_run, E).
    pure_step Ei. apply scan_profiles_run.
Qed.

Lemma info_at_ext (σ s : fs) (p : path) :
  s !! p = σ !! p → info_at s p = info_at σ p.
Proof.
  intros E. unfold info_at, _load_json, read_text, bind.
  rewrite !read_bytes_run. cbn [value final seen]. rewrite E.
  destruct (σ !! p) as [[data m | m] |]; cbn [value final seen]; try done.
  destruct (utf8_decode data) as [text|]; cbn [ret raise value final seen];
    [| done].
  by destruct (json_loads text).
Qed.

Lemma listed_ext (σ s : fs) (entry : path) :
  s !! entry = σ !! entry →
  s !! (entry /: "auth.json") = σ !! (entry /: "auth.json") →
  listed s entry = listed σ entry.
Proof.
  intros E1 E2. unfold listed. rewrite E1, E2.
  by rewrite (info_at_ext σ s (entry /: "auth.json") E2).
Qed.

Lemma listed_iff (σ : fs) (d : path) (p : ProfileInfo) :
  listed σ d = Some p
  ↔ is_directory (σ !! d)
    ∧ startswith (str "_") (name_of d) = false
    ∧ is_Some (σ !! (d /: "auth.json"))
    ∧ p = mkProfileInfo (name_of d) d (d /: "auth.json") (d /: "meta.json")
            (info_at σ (d /: "auth.json")).
Proof.
  unfold listed. destruct (σ !! d) as [[|]|]; cbn [is_directory].
  - split; [done | by intros [[] _]].
  - destruct (startswith (str "_") (name_of d)).
    + split; [done | by intros (_ & ? & _)].
    + destruct (σ !! (d /: "auth.json")) as [na|].
      * split; [by intros [= <-] | by intros (_ & _ & _ & ->)].
      * split; [done | by intros (_ & _ & [? ?] & _)].
  - split; [done | by intros [[] _]].
Qed.

Lemma list_profiles_elem (σ : fs) (ps : list ProfileInfo) (p : ProfileInfo) :
  is_directory (σ !! PROFILES_DIR) →
  value (list_profiles σ) = Ok ps →
  p ∈ ps ↔ ∃ d, d ∈ entries_of σ PROFILES_DIR ∧ listed σ d = Some p.
Proof.
  intros Hd. rewrite list_profiles_run. cbn [value].
  destruct (σ !! PROFILES_DIR) as [[|]|]; try done. intros [= <-].
  rewrite list_elem_of_omap. unfold sorted_by_lower_name.
  split; intros (d & Hin & Hl); exists d; (split; [| done]).
  - by rewrite merge_sort_Permutation in Hin.
  - by rewrite merge_sort_Permutation.
Qed.

Lemma NoDup_omap {A B : Type} (f : A → option B) (l : list A) :
  (∀ x y z, f x = Some z → f y = Some z → x = y) →
  NoDup l → NoDup (omap f l).
Proof.
  intros Hinj. induction 1 as [| x l Hx Hl IH]; [constructor |].
  rewrite omap_cons_eq. destruct (f x) as [z|] eqn:E; [| done].
  constructor; [| done]. intros Hz. apply list_elem_of_omap in Hz as (y & Hy & Ey).
  by rewrite (Hinj x y z E Ey) in Hx.
Qed.

(** [list_profiles] only reads.  It answers with the empty list when the
    registry does not exist, raises when the registry is a regular file,
    and returns a list in every other case: a profile whose credential
    cannot be read does not make the listing fail. *)
Theorem list_profiles_reads_only (σ : fs) :
  seen (list_profiles σ) = [] ∧ final (list_profiles σ) = σ
  ∧ (σ !! PROFILES_DIR = None → value (list_profiles σ) = Ok [])
  ∧ (∀ data m, σ !! PROFILES_DIR = Some (File data m) →
               value (list_profiles σ) = Raise NotADirectoryError)
  ∧ (is_directory (σ !! PROFILES_DIR) →
     ∃ ps, value (list_profiles σ) = Ok ps).
Proof.
  rewrite list_profiles_run. cbn [seen final value]. split_and!; try done.
  - by intros ->.
  - by intros data m ->.
  - destruct (σ !! PROFILES_DIR) as [[|]|]; try done. by eexists.
Qed.

(** The profiles listed are exactly the directories directly inside the
    registry whose name does not begin with an underscore and which hold an
    [auth.json]; each is listed once, under the name of its directory, with
    the identity read from its credential. *)
Theorem list_profiles_lists_exactly (σ : fs) (ps : list ProfileInfo) :
  is_directory (σ !! PROFILES_DIR) →
  value (list_profiles σ) = Ok ps →
  NoDup ps
  ∧ ∀ p, p ∈ ps ↔
         ∃ d : path,
           d ≠ [] ∧ parent d = PROFILES_DIR ∧ is_directory (σ !! d)
           ∧ startswith (str "_") (name_of d) = false
           ∧ is_Some (σ !! (d /: "auth.json"))
           ∧ p = mkProfileInfo (name_of d) d (d /: "auth.json")
                   (d /: "meta.json") (info_at σ (d /: "auth.json")).
Proof.
  intros Hd Hv. split.
  - rewrite list_profiles_run in Hv. cbn [value] in Hv.
    destruct (σ !! PROFILES_DIR) as [[|]|]; try done. injection Hv as <-.
    apply NoDup_omap.
    + intros x y z Hx Hy. apply listed_name in Hx as (_ & <- & _).
      by apply listed_name in Hy as (_ & <- & _).
    + unfold sorted_by_lower_name. rewrite merge_sort_Permutation.
      apply NoDup_entries.
  - intros p. rewrite (list_profiles_elem σ ps p Hd Hv). split.
    + intros (d & Hin & Hl). exists d.
      apply elem_of_entries in Hin as (Hd0 & Hp & _).
      apply listed_iff in Hl. tauto.
    + intros (d & Hd0 & Hp & Hdir & Hu & Ha & ->). exists d. split.
      * apply elem_of_entries. split_and!; [done.. |].
        by apply is_directory_Some.
      * by apply listed_iff.
Qed.

(** A profile whose credential is not a JSON text is still listed, with no
    identity. *)
Theorem unreadable_profile_is_listed_blank (σ : fs) (d : path)
    (data : list byte) (m : float) :
  is_directory (σ !! PROFILES_DIR) →
  d ≠ [] → parent d = PROFILES_DIR → is_directory (σ !! d) →
  startswith (str "_") (name_of d) = false →
  σ !! (d /: "auth.json") = Some (File data m) →
  (∀ text, utf8_decode data = Some text → json_loads text = None) →
  ∃ ps, value (list_profiles σ) = Ok ps
        ∧ mkProfileInfo (name_of d) d (d /: "auth.json") (d /: "meta.json")
            no_auth_info ∈ ps.
Proof.
  intros HP Hd0 Hp Hd Hu Ha Hbad.
  assert (∃ ps, value (list_profiles σ) = Ok ps) as [ps Hv].
  { rewrite list_profiles_run. cbn [value].
    destruct (σ !! PROFILES_DIR) as [[|]|]; try done. by eexists. }
  exists ps. split; [done |].
  apply (list_profiles_elem σ ps _ HP Hv). exists d. split.
  - apply elem_of_entries. split_and!; [done.. |]. by apply is_directory_Some.
  - apply listed_iff. split_and!; [done.. | by rewrite Ha |].
    f_equal. unfold info_at, _load_json, read_text, bind.
    rewrite read_bytes_run. cbn [value final seen]. rewrite Ha.
    cbn [value final seen].
    destruct (utf8_decode data) as [text|] eqn:E;
      cbn [ret raise value final seen]; [| done].
    by rewrite (Hbad text).
Qed.







(** After a profile is deleted, the listing shows the profiles it showed
    before, but for the one deleted. *)
Theorem deleted_profile_is_not_listed (raw n : pystr) (σ : fs)
    (ps : list ProfileInfo) :
  _validate_profile_name raw = Ok n →
  is_directory (σ !! profile_dir_of n) →
  value (list_profiles σ) = Ok ps →
  ∃ ps', value (list_profiles (final (delete_profile raw σ))) = Ok ps'
         ∧ ∀ p, p ∈ ps' ↔ p ∈ ps ∧ name p ≠ n.
Proof.
  intros Hn Hd Hv. set (σ' := final (delete_profile raw σ)).
  assert (Hpr : pruned (profile_dir_of n) σ σ').
  { apply validate_ok_iff in Hn as Hs. destruct Hs as [-> _].
    apply prunes_delete_profile, final_in_states. }
  assert (Hgone : σ' !! profile_dir_of n = None).
  { unfold σ'. rewrite (delete_profile_run raw n σ Hn).
    destruct (σ !! profile_dir_of n) as [[|]|] eqn:E; try done.
    apply shutil_rmtree_ok. by rewrite E. }
  assert (HP : σ' !! PROFILES_DIR = σ !! PROFILES_DIR).
  { apply (pruned_off _ _ _ _ Hpr). intros Hpre%prefix_length.
    unfold profile_dir_of in Hpre. rewrite length_app in Hpre. cbn in Hpre.
    lia. }
  assert (Hsib : ∀ d : path, d ≠ [] → parent d = PROFILES_DIR →
                 d ≠ profile_dir_of n →
                 ∀ k : path, d `prefix_of` k → σ' !! k = σ !! k).
  { intros d Hd0 Hp Hne k Hk. apply (pruned_off _ _ _ _ Hpr). intros Hk'.
    apply Hne. eapply (siblings_apart PROFILES_DIR d (profile_dir_of n) k);
      try done.
    - unfold profile_dir_of. by destruct PROFILES_DIR.
    - apply parent_snoc. }
  rewrite list_profiles_run in Hv. rewrite list_profiles_run. cbn [value] in *.
  rewrite HP. destruct (σ !! PROFILES_DIR) as [[|]|]; try done.
  - injection Hv as <-. eexists. split; [done |]. intros p.
    rewrite !list_elem_of_omap. unfold sorted_by_lower_name.
    setoid_rewrite merge_sort_Permutation. split.
    + intros (d & Hin & Hl).
      apply elem_of_entries in Hin as (Hd0 & Hp & Hs).
      assert (Hne : d ≠ profile_dir_of n).
      { intros ->. rewrite Hgone in Hs. by destruct Hs. }
      pose proof (Hsib d Hd0 Hp Hne) as Hk.
      rewrite (listed_ext σ σ' d) in Hl;
        [| by apply Hk | apply Hk; by exists [str "auth.json"]].
      split.
      * exists d. split; [| done]. apply elem_of_entries.
        split_and!; [done.. |]. by rewrite <- Hk.
      * apply listed_name in Hl as (_ & _ & -> & _). intros E. apply Hne.
        rewrite (path_split d Hd0), Hp, E. done.
    + intros [(d & Hin & Hl) Hnm].
      apply elem_of_entries in Hin as (Hd0 & Hp & Hs).
      assert (Hne : d ≠ profile_dir_of n).
      { intros ->. apply listed_name in Hl as (_ & _ & E & _).
        apply Hnm. rewrite E. apply name_of_snoc. }
      pose proof (Hsib d Hd0 Hp Hne) as Hk.
      exists d. split.
      * apply elem_of_entries. split_and!; [done.. |]. by rewrite Hk.
      * rewrite (listed_ext σ σ' d);
          [done | by apply Hk | apply Hk; by exists [str "auth.json"]].
  - injection Hv as <-. exists []. split; [done |]. intros p. split.
    + by intros ?%elem_of_nil.
    + by intros [?%elem_of_nil _].
Qed.

(** ** What a save that returns has done *)









Lemma rooted_check (σ : fs) (p : path) : rooted_b σ p = true → rooted σ p.
Proof.
  unfold rooted_b. rewrite forallb_forall. intros Hb q [n Hn] Hpre Hne.
  specialize (Hb q). rewrite <- list_elem_of_In in Hb.
  assert (Hin : q ∈ (map_to_list σ).*1).
  { apply list_elem_of_fmap. exists (q, n). split; [done |].
    by apply elem_of_map_to_list. }
  specialize (Hb Hin).
  rewrite (bool_decide_eq_true_2 _ Hpre), (bool_decide_eq_false_2 _ Hne) in Hb.
  cbn [negb orb] in Hb. by destruct (σ !! parent q) as [[|]|].
Qed.

(** ** What a save leaves alone *)

Lemma ow_save_validated (n : pystr) (overwrite : bool) :
  only_writes (λ p, on_the_way_to (profile_dir_of n) p
                    ∨ p = profile_dir_of n /: "auth.json"
                    ∨ p = profile_dir_of n /: "auth.json.tmp"
                    ∨ p = profile_dir_of n /: "meta.json"
                    ∨ p = profile_dir_of n /: "meta.json.tmp")
    (save_validated n overwrite).
Proof.
  unfold save_validated.
  apply ow_bind; [apply ow_path_exists | intros e1].
  destruct (negb e1); [apply ow_raise |].
  apply ow_bind.
  { apply ow_safe_mkdir. intros p Hp. left. by apply way_profiles_profile. }
  intros _. apply ow_bind; [apply ow_path_exists | intros e2].
  destruct (e2 && negb overwrite); [apply ow_raise |].
  apply ow_bind; [apply ow_safe_mkdir; by left | intros _].
  apply ow_bind; [| intros _].
  - eapply ow_mono; [| apply ow_copy_to_profile]. intros p [-> | ->]; auto.
  - eapply ow_mono; [| apply ow_save_tail]. intros p [-> | ->]; auto 6.
Qed.

Lemma ow_save (raw : pystr) (overwrite : bool) :
  only_writes (λ p, on_the_way_to (profile_dir_of (strip raw)) p
                    ∨ p = profile_dir_of (strip raw) /: "auth.json"
                    ∨ p = profile_dir_of (strip raw) /: "auth.json.tmp"
                    ∨ p = profile_dir_of (strip raw) /: "meta.json"
                    ∨ p = profile_dir_of (strip raw) /: "meta.json.tmp")
    (save_current_as_profile raw overwrite).
Proof.
  unfold save_current_as_profile. apply ow_bind_lift. intros n Hn.
  apply validate_ok_iff in Hn as [-> _].
  change (only_writes
            (λ p, on_the_way_to (profile_dir_of (strip raw)) p
                  ∨ p = profile_dir_of (strip raw) /: "auth.json"
                  ∨ p = profile_dir_of (strip raw) /: "auth.json.tmp"
                  ∨ p = profile_dir_of (strip raw) /: "meta.json"
                  ∨ p = profile_dir_of (strip raw) /: "meta.json.tmp")
            (save_validated (strip raw) overwrite)).
  apply ow_save_validated.
Qed.

Lemma profile_dirs_apart (n n' : pystr) (r : list pystr) :
  n' ≠ n → ¬ on_the_way_to (profile_dir_of n) (profile_dir_of n' ++ r).
Proof.
  intros Hne Hw. unfold profile_dir_of in Hw. rewrite <- app_assoc in Hw.
  apply way_under in Hw as [r' E]. cbn in E. by injection E.
Qed.

Lemma profile_leaves_apart (n n' : pystr) (a b : pystr) :
  n' ≠ n → profile_dir_of n' ++ [a] ≠ profile_dir_of n ++ [b].
Proof.
  intros Hne E. unfold profile_dir_of in E. rewrite <- !app_assoc in E.
  apply app_inv_head in E. cbn in E. by injection E.
Qed.

(** In every state of a save, whatever its outcome, the active credential
    is as it was at the start, and so are the directory and the files of
    every profile other than the one saved. *)
Theorem save_touches_only_its_profile (raw : pystr) (overwrite : bool)
    (σ s : fs) :
  s ∈ states_of (save_current_as_profile raw overwrite) σ →
  s !! AUTH_PATH = σ !! AUTH_PATH
  ∧ ∀ n, n ≠ strip raw →
         s !! profile_dir_of n = σ !! profile_dir_of n
         ∧ ∀ leaf : pystr, s !! (profile_dir_of n ++ [leaf])
                           = σ !! (profile_dir_of n ++ [leaf]).
Proof.
  intros Hs. unfold states_of in Hs. apply elem_of_cons in Hs as [-> | Hs];
    [done |].
  pose proof (ow_save raw overwrite σ s) as Hw. split.
  - apply Hw; [done |]. intros [Hp | [Hp | [Hp | [Hp | Hp]]]].
    + by apply auth_off_profile in Hp.
    + by apply auth_ne_profile_leaf in Hp.
    + by apply auth_ne_profile_leaf in Hp.
    + by apply auth_ne_profile_leaf in Hp.
    + by apply auth_ne_profile_leaf in Hp.
  - intros n Hn. split; [| intros leaf]; (apply Hw; [done |]).
    + intros [Hp | Hp].
      * rewrite <- (app_nil_r (profile_dir_of n)) in Hp.
        by apply profile_dirs_apart in Hp.
      * destruct Hp as [Hp | [Hp | [Hp | Hp]]];
          apply (f_equal length) in Hp; revert Hp;
          unfold profile_dir_of, child; rewrite !length_app; cbn; lia.
    + intros [Hp | Hp].
      * by apply profile_dirs_apart in Hp.
      * destruct Hp as [Hp | [Hp | [Hp | Hp]]];
          by apply profile_leaves_apart in Hp.
Qed.

(** A save refuses, and changes nothing, when the name is not valid, when
    there is no active credential, and when the profile exists and
    overwriting was not asked for. *)
Theorem save_refuses (raw : pystr) (overwrite : bool) (σ : fs) :
  (∀ e, _validate_profile_name raw = Raise e →
        save_current_as_profile raw overwrite σ = Run [] σ (Raise e))
  ∧ (∀ n, _validate_profile_name raw = Ok n → σ !! AUTH_PATH = None →
          save_current_as_profile raw overwrite σ
          = Run [] σ (Raise FileNotFoundError))
  ∧ (∀ n, _validate_profile_name raw = Ok n → overwrite = false →
          is_Some (σ !! AUTH_PATH) → dir_chain σ [] PROFILES_DIR →
          is_Some (σ !! profile_dir_of n) →
          save_current_as_profile raw overwrite σ
          = Run [] σ (Raise FileExistsError)).
Proof.
  split_and!.
  - intros e He. unfold save_current_as_profile.
    assert (E : lift (_validate_profile_name raw) σ = Run [] σ (Raise e))
      by (by rewrite lift_run, He).
    by rewrite (bind_raise _ _ _ _ _ _ E).
  - intros n Hn Ha. by eapply save_not_found.
  - intros n Hn -> Ha Hc Hd. by eapply save_already_exists.
Qed.

(** ** Reading the current identity *)

Lemma read_current_run (σ : fs) :
  read_current_auth_info σ
  = Run [] σ (Ok match σ !! AUTH_PATH with
                 | Some _ => info_at σ AUTH_PATH
                 | None => no_auth_info
                 end).
Proof.
  unfold read_current_auth_info.
  rewrite (bind_pure _ _ _ _ _ (path_exists_run AUTH_PATH σ)).
  destruct (σ !! AUTH_PATH); cbn [negb]; [apply load_info_run | done].
Qed.

Lemma info_at_value (p : path) σ :
  info_at σ p
  = match value (read_auth_info_from_path p σ) with
    | Ok i => i
    | Raise _ => no_auth_info
    end.
Proof.
  unfold info_at, read_auth_info_from_path, bind.
  destruct (value (_load_json p σ)); done.
Qed.

Lemma info_at_data (p q : path) (data : list byte) (m m' : float) (σ s : fs) :
  σ !! p = Some (File data m) → s !! q = Some (File data m') →
  info_at s q = info_at σ p.
Proof.
  intros Hp Hq. rewrite !info_at_value.
  by rewrite (read_auth_info_run p data m σ Hp),
             (read_auth_info_run q data m' s Hq).
Qed.

(** [read_current_auth_info] returns on every store and writes nothing.
    It gives the empty identity when there is no active credential or when
    reading it fails, and otherwise what [read_auth_info_from_path] gives
    for the active credential. *)
Theorem read_current_auth_info_total (σ : fs) :
  seen (read_current_auth_info σ) = []
  ∧ final (read_current_auth_info σ) = σ
  ∧ (∃ i, value (read_current_auth_info σ) = Ok i)
  ∧ (σ !! AUTH_PATH = None →
     value (read_current_auth_info σ) = Ok no_auth_info)
  ∧ (∀ i, value (read_auth_info_from_path AUTH_PATH σ) = Ok i →
          value (read_current_auth_info σ) = Ok i)
  ∧ (∀ e, value (read_auth_info_from_path AUTH_PATH σ) = Raise e →
          value (read_current_auth_info σ) = Ok no_auth_info).
Proof.
  rewrite read_current_run. cbn [seen final value].
  split_and!; [done | done | by eexists | by intros -> | |].
  - intros i Hi. rewrite info_at_value, Hi.
    destruct (σ !! AUTH_PATH) as [[|]|] eqn:E; [done | |].
    + revert Hi. unfold read_auth_info_from_path, _load_json, read_text, bind.
      rewrite read_bytes_run, E. done.
    + revert Hi. unfold read_auth_info_from_path, _load_json, read_text, bind.
      rewrite read_bytes_run, E. done.
  - intros e He. rewrite info_at_value, He. by destruct (σ !! AUTH_PATH).
Qed.

End Properties.


(** * Closed instances *)



(** C5, counterexample to the claim as stated: on Windows the name
    [work ], which ends in a space, is accepted; validation strips it. *)
Lemma trailing_space_accepted_on_windows :
  os_nt (Env := nt_env) = true
  ∧ endswith (str " ") (str "work ") = true
  ∧ _validate_profile_name (H := nt_env) (str "work ") = Ok (str "work").
Proof. repeat split; reflexivity. Qed.

(** C5, witness: on Windows [work.] is refused, [a/b] is refused
    everywhere, and [personal-2] passes. *)
Lemma validation_refuses_witness :
  (∃ why, _validate_profile_name (H := nt_env) (str "work.")
          = Raise (ValueError why))
  ∧ (∃ why, _validate_profile_name (H := posix_env) (str "a/b")
            = Raise (ValueError why))
  ∧ _validate_profile_name (H := posix_env) (str " personal-2")
    = Ok (strip (str " personal-2")).
Proof.
  split_and!.
  - apply (proj1 (validation_refuses (H := nt_env) (str "work."))).
    do 5 right. split; [reflexivity | left; reflexivity].
  - apply (proj1 (validation_refuses (H := posix_env) (str "a/b"))).
    do 3 right. left. reflexivity.
  - apply (proj1 (proj2 (validation_refuses (H := posix_env)
                           (str " personal-2")))).
    intros [E|[E|[E|[E|[E|[E _]]]]]]; discriminate E.
Defined.

(** C10, witness: three spaces are refused as an empty name, and the name
    [  work  ] is accepted as [work]; saving under it creates the profile
    directory [work]. *)
Lemma validation_strips_first_witness :
  _validate_profile_name (H := posix_env) (str "   ")
  = Raise (ValueError EmptyName)
  ∧ str "work" = strip (str "  work  ")
  ∧ is_Some (final (save_current_as_profile (H := posix_env) (str "  work  ")
                      false (with_auth "{}" 5 empty_home))
             !! at_home ["account_profiles"; "work"; "auth.json"]).
Proof.
  split_and!.
  - apply (proj1 (proj2 (proj2
      (validation_strips_first (H := posix_env) (str "   "))))).
    reflexivity.
  - apply (proj1 (proj2
      (validation_strips_first (H := posix_env) (str "  work  ")))).
    reflexivity.
  - vm_compute. eexists. reflexivity.
Defined.

(** C6, counterexample to the claim as stated: the API-key field is the
    non-empty string of one space, and the login type is not [api_key]. *)
Lemma blank_api_key_is_not_api_key :
  str " " ≠ []
  ∧ login_type (_extract_auth_info (H := posix_env)
                  (JDict [(str "OPENAI_API_KEY", JStr (str " "))]))
    = None.
Proof. split; [discriminate | reflexivity]. Qed.

(** C6, witness: an API key wins over a refresh token, and a refresh token
    alone gives [chatgpt]. *)
Lemma login_type_precedence_witness :
  login_type (_extract_auth_info (H := posix_env)
      (JDict [(str "OPENAI_API_KEY", JStr (str "sk-x"));
              (str "tokens", JDict [(str "refresh_token", JStr (str "r"))])]))
  = Some (str "api_key")
  ∧ login_type (_extract_auth_info (H := posix_env)
      (JDict [(str "tokens", JDict [(str "refresh_token", JStr (str "r"))])]))
    = Some (str "chatgpt").
Proof.
  split.
  - apply (proj1 (login_type_precedence (H := posix_env) _)).
    exists (str "sk-x"). split; [reflexivity | discriminate].
  - apply (proj1 (proj2 (login_type_precedence (H := posix_env) _))).
    + intros (s & Hs & _). discriminate Hs.
    + exists (str "r"). split; [reflexivity | discriminate].
Defined.




(** C9, witness: in [bootstrap] mode (the default) nothing is written while
    a local credential exists, and a Windows credential is imported when
    none does. *)
Lemma bootstrap_sync_witness :
  _sync_wsl_windows_auth (H := posix_env) true None None (Some win_home)
    (with_win_auth "win" 20 (with_auth "wsl" 10 two_sides))
  = Run [] (with_win_auth "win" 20 (with_auth "wsl" 10 two_sides)) (Ok None)
  ∧ final (_sync_wsl_windows_auth (H := posix_env) true None None
             (Some win_home) (with_win_auth "win" 20 two_sides))
      !! at_home ["auth.json"] = Some (File (bytes_of "win") 100).
Proof.
  split.
  - apply (proj1 (bootstrap_sync (H := posix_env) win_home None None
                    (with_win_auth "win" 20 (with_auth "wsl" 10 two_sides))
                    eq_refl eq_refl)).
    eexists. reflexivity.
  - destruct (bootstrap_sync (H := posix_env) win_home None None
                (with_win_auth "win" 20 two_sides) eq_refl eq_refl)
      as (_ & _ & Himport & _).
    destruct (Himport (bytes_of "win") 20%float) as (_ & Hlocal & _).
    + reflexivity.
    + reflexivity.
    + split_and!.
      * discriminate.
      * apply no_file_check. reflexivity.
      * vm_compute. tauto.
      * vm_compute. tauto.
    + exact Hlocal.
Defined.

(** C3, the failing input: in [/tmp/h] with an active credential and the
    profile [x], saving under the valid name [_x] returns a profile and
    stores the snapshot, and the list that follows shows [x] alone. *)
Lemma underscore_profile_is_not_listed_witness :
  (∃ p, value (save_current_as_profile (H := posix_env) (str "_x") false
                 store_x_json) = Ok p
        ∧ name p = str "_x")
  ∧ final (save_current_as_profile (H := posix_env) (str "_x") false
             store_x_json)
      !! at_home ["account_profiles"; "_x"; "auth.json"]
    = Some (File (bytes_of "{}") 100)
  ∧ value (list_profiles (H := posix_env)
             (final (save_current_as_profile (H := posix_env) (str "_x") false
                       store_x_json)))
    = Ok [profile_x]
  ∧ name profile_x ≠ str "_x".
Proof.
  split_and!.
  - eexists. split; vm_compute; reflexivity.
  - vm_compute. reflexivity.
  - vm_compute. reflexivity.
  - apply (underscore_profile_is_not_listed (H := posix_env)
             (str "_x") (str "_x") false store_x_json [profile_x] profile_x).
    + reflexivity.
    + reflexivity.
    + vm_compute. reflexivity.
    + apply list_elem_of_here.
Defined.

(** C4, the failing input: the active credential holds the bytes [active],
    which are not JSON; saving over the profile [x] with overwrite replaces
    the snapshot and raises, and the metadata of the earlier save stays. *)
Lemma save_malformed_credential_witness :
  (value (save_current_as_profile (H := posix_env) (str "x") true store_x)
   = Raise UnicodeDecodeError
   ∨ value (save_current_as_profile (H := posix_env) (str "x") true store_x)
     = Raise JSONDecodeError)
  ∧ final (save_current_as_profile (H := posix_env) (str "x") true store_x)
      !! at_home ["account_profiles"; "x"; "auth.json"]
    = Some (File (bytes_of "active") 100)
  ∧ final (save_current_as_profile (H := posix_env) (str "x") true store_x)
      !! at_home ["account_profiles"; "x"; "meta.json"]
    = Some (File (bytes_of "meta of x") 3).
Proof.
  apply (save_malformed_credential (H := posix_env) (str "x") (str "x") true
           (bytes_of "active") 5%float store_x).
  - reflexivity.
  - reflexivity.
  - split_and!.
    + apply no_file_check. reflexivity.
    + vm_compute. tauto.
    + vm_compute. tauto.
    + vm_compute. tauto.
    + vm_compute. tauto.
  - by left.
  - intros text Ht. vm_compute in Ht. injection Ht as <-. reflexivity.
Defined.

(** Beside C2: the backup taken by a switch is not a snapshot save nor a
    write of the active credential; [shutil.copy2] writes it under its own
    name, and a reader can see a prefix of it there. *)
Lemma backup_is_written_in_place :
  ∃ s, s ∈ states_of (switch_to_profile (H := posix_env) profile_x) store_x
       ∧ s !! at_home ["account_profiles"; "_backups";
                       "auth_20240115T103000Z.json"]
         = Some (File (bytes_of "act") 100).
Proof.
  set (l := states_of (switch_to_profile (H := posix_env) profile_x) store_x).
  set (p := at_home ["account_profiles"; "_backups";
                     "auth_20240115T103000Z.json"]).
  assert (Hs : is_Some (l !! 5%nat))
    by (apply lookup_lt_is_Some; vm_compute; lia).
  destruct Hs as [s Hs]. exists s. split.
  - by eapply list_elem_of_lookup_2.
  - assert (E : (l !! 5%nat) ≫= (λ s, s !! p)
                = Some (File (bytes_of "act") 100))
      by (vm_compute; reflexivity).
    by rewrite Hs in E.
Qed.

(** ** Removing and listing profiles *)

(** Deleting the profile [x] of the example store: the call returns, the
    snapshot is gone and the active credential is as it was. *)
Lemma delete_profile_removes_witness :
  value (delete_profile (H := posix_env) (str "x") store_x) = Ok tt
  ∧ final (delete_profile (H := posix_env) (str "x") store_x)
      !! at_home ["account_profiles"; "x"; "auth.json"] = None
  ∧ final (delete_profile (H := posix_env) (str "x") store_x)
      !! at_home ["auth.json"] = Some (File (bytes_of "active") 5).
Proof.
  destruct (delete_profile_removes (H := posix_env) (str "x") (str "x")
              store_x) as (Hv & Hgone & Hkeep).
  - reflexivity.
  - vm_compute. exact I.
  - apply rooted_check. vm_compute. reflexivity.
  - split; [exact Hv |]. split.
    + apply Hgone. by exists [str "auth.json"].
    + rewrite Hkeep; [reflexivity |]. intros [r E]. discriminate E.
Defined.

(** The state [delete_profile] ends in, for the profile [x]: the active
    credential is the one of the initial store. *)
Lemma delete_profile_touches_nothing_else_witness :
  final (delete_profile (H := posix_env) (str "x") store_x)
    !! AUTH_PATH (H := posix_env)
  = store_x !! AUTH_PATH (H := posix_env).
Proof.
  apply (delete_profile_touches_nothing_else (H := posix_env) (str "x")
           store_x).
  unfold states_of. apply elem_of_cons. right. apply elem_of_app. right.
  apply list_elem_of_singleton. reflexivity.
Defined.

(** [delete_profile] refusing: a name with a separator, a profile that does
    not exist, and an entry that is a regular file. *)
Lemma delete_profile_refuses_witness :
  delete_profile (H := posix_env) (str "a/b") store_x
  = Run [] store_x (Raise (ValueError HasSeparator))
  ∧ delete_profile (H := posix_env) (str "y") store_x
    = Run [] store_x (Raise FileNotFoundError)
  ∧ delete_profile (H := posix_env) (str "f")
      (put_file ["account_profiles"; "f"] "text" 1 store_x)
    = Run [] (put_file ["account_profiles"; "f"] "text" 1 store_x)
        (Raise NotADirectoryError).
Proof.
  split; [| split].
  - apply (proj1 (delete_profile_refuses (H := posix_env) (str "a/b")
                    store_x)).
    reflexivity.
  - apply (proj1 (proj2 (delete_profile_refuses (H := posix_env) (str "y")
                           store_x)) (str "y")); reflexivity.
  - apply (proj2 (proj2 (delete_profile_refuses (H := posix_env) (str "f")
                           (put_file ["account_profiles"; "f"] "text" 1
                              store_x)))
             (str "f") (bytes_of "text") 1%float); reflexivity.
Defined.

(** The listing of the example store is the profile [x], once. *)
Lemma list_profiles_lists_exactly_witness :
  NoDup [profile_x]
  ∧ ∀ p, p ∈ [profile_x] ↔
         ∃ d : path,
           d ≠ [] ∧ parent d = PROFILES_DIR (H := posix_env)
           ∧ is_directory (store_x !! d)
           ∧ startswith (str "_") (name_of d) = false
           ∧ is_Some (store_x !! (d /: "auth.json"))
           ∧ p = mkProfileInfo (name_of d) d (d /: "auth.json")
                   (d /: "meta.json")
                   (info_at (H := posix_env) store_x (d /: "auth.json")).
Proof.
  apply (list_profiles_lists_exactly (H := posix_env) store_x [profile_x]).
  - vm_compute. exact I.
  - vm_compute. reflexivity.
Defined.

(** A profile [x] whose credential is the text [oops] is listed, with no
    identity. *)
Lemma unreadable_profile_is_listed_blank_witness :
  ∃ ps,
    value (list_profiles (H := posix_env)
             (put_file ["account_profiles"; "x"; "auth.json"] "oops" 3
                store_x)) = Ok ps
    ∧ mkProfileInfo (name_of (at_home ["account_profiles"; "x"]))
        (at_home ["account_profiles"; "x"])
        (at_home ["account_profiles"; "x"] /: "auth.json")
        (at_home ["account_profiles"; "x"] /: "meta.json")
        no_auth_info ∈ ps.
Proof.
  apply (unreadable_profile_is_listed_blank (H := posix_env)
           (put_file ["account_profiles"; "x"; "auth.json"] "oops" 3 store_x)
           (at_home ["account_profiles"; "x"]) (bytes_of "oops") 3%float).
  - vm_compute. exact I.
  - discriminate.
  - reflexivity.
  - vm_compute. exact I.
  - reflexivity.
  - reflexivity.
  - intros text Ht. vm_compute in Ht. injection Ht as <-. reflexivity.
Defined.


(** After the profile [x] of the example store is deleted, it is not in
    the listing. *)
Lemma deleted_profile_is_not_listed_witness :
  ∃ ps',
    value (list_profiles (H := posix_env)
             (final (delete_profile (H := posix_env) (str "x") store_x)))
    = Ok ps'
    ∧ ∀ p, p ∈ ps' ↔ p ∈ [profile_x] ∧ name p ≠ str "x".
Proof.
  apply (deleted_profile_is_not_listed (H := posix_env) (str "x") (str "x")
           store_x [profile_x]).
  - reflexivity.
  - vm_compute. exact I.
  - vm_compute. reflexivity.
Defined.

